(** * The file-descriptor provider subsystem (fds/fds.c)

    A shallow embedding of the provider registry, the initialization
    scheduler [open_fds], the selectors [get_new_random_fd] and
    [get_random_fd], and the option processor [process_fds_param].

    The C globals, the shared-memory lease and the outside world are the
    fields of one [state] record that every operation threads through.
    Unbounded loops take a fuel argument that bounds the number of
    iterations; [exit] is an outcome of its own. *)

From Stdlib Require Import ZArith List String Ascii Bool Lia Arith.
Import ListNotations.
Open Scope Z_scope.

(** ** Machine integers and constants *)

(** [unsigned int] arithmetic wraps modulo 2^32. *)
Definition wrap32 (z : Z) : Z := z mod 2 ^ 32.

(** [c++] and [c--] on an [unsigned int]. *)
Definition incr (c : Z) : Z := wrap32 (c + 1).
Definition decr (c : Z) : Z := wrap32 (c - 1).

(** stdlib.h *)
Definition EXIT_FAILURE : Z := 1.

(** ** C strings *)

Definition NUL : ascii := Ascii.zero.
Definition COMMA : ascii := ","%char.

(** The characters of a buffer up to its first NUL (the end of the list
    stands for the terminator that follows the allocated characters). *)
Fixpoint c_str (buf : list ascii) : list ascii :=
  match buf with
  | [] => []
  | c :: rest => if Ascii.eqb c NUL then [] else c :: c_str rest
  end.

(** The C string that starts at offset [off] of [buf]. *)
Definition c_str_at (buf : list ascii) (off : nat) : string :=
  string_of_list_ascii (c_str (skipn off buf)).

Definition strlen (p : string) : nat := List.length (c_str (list_ascii_of_string p)).

(** The copy that [strdup] allocates: the characters and the terminator,
    [strlen + 1] bytes. *)
Definition strdup (p : string) : list ascii :=
  c_str (list_ascii_of_string p) ++ [NUL].

(** [buf[i] = c] *)
Fixpoint poke (i : nat) (c : ascii) (buf : list ascii) : list ascii :=
  match buf, i with
  | [], _ => []
  | _ :: rest, O => c :: rest
  | b :: rest, S i' => b :: poke i' c rest
  end.

(** A string that is a C string: no NUL among its characters. *)
Definition is_c_string (p : string) : Prop := ~ In NUL (list_ascii_of_string p).

(** ** What the subsystem prints *)

Inductive message : Type :=
| MsgRegistered (n : Z)                 (* "Registered %d fd providers." *)
| MsgSummary (en ini : Z)               (* "Enabled %d fd providers: initialized:%d." *)
| MsgEnabled (str : string)             (* "Enabled fd provider %s" *)
| MsgDisabled (str : string)            (* "Disabled fd provider %s" *)
| MsgUnknownEnable (str : string)       (* "Unknown --enable-fds parameter" *)
| MsgUnknownDisable (str : string)      (* "Unknown --disable-fds parameter" *)
| MsgUsage.                             (* enable_disable_fd_usage() *)

(** Everything the subsystem does to its collaborators, newest first in
    the trace: a draw of the generator, a provider's [open] or [get]
    (the provider is named by its position in the list), a line of output. *)
Inductive event : Type :=
| EvRnd (r : Z)
| EvOpen (idx : nat) (ok : bool)
| EvGet (idx : nat) (fd : Z)
| EvOutput (m : message).

Section Fds.

(** The outside world the providers and the generator act on. *)
Context {env : Type}.

(** [rnd()], the uniform integer primitive, given. *)
Variable rnd : env -> Z * env.

(** struct fd_provider *)
Record fd_provider : Type := mk_provider {
  name : string;
  enabled : bool;
  initialized : bool;
  open : env -> bool * env;
  get : env -> Z * env
}.

Definition set_enabled (b : bool) (p : fd_provider) : fd_provider :=
  mk_provider (name p) b (initialized p) (open p) (get p).

Definition set_initialized (b : bool) (p : fd_provider) : fd_provider :=
  mk_provider (name p) (enabled p) b (open p) (get p).

(** The globals of fds.c, the lease in shared memory ([shm->current_fd],
    [shm->fd_lifetime]), [max_children], the outside world and the trace. *)
Record state : Type := mk_state {
  fd_providers : list fd_provider;
  num_fd_providers : Z;
  num_fd_providers_to_enable : Z;
  num_fd_providers_enabled : Z;
  num_fd_providers_initialized : Z;
  shm_current_fd : Z;
  shm_fd_lifetime : Z;
  max_children : Z;
  ext : env;
  trace : list event
}.

Definition set_providers (l : list fd_provider) (s : state) : state :=
  mk_state l (num_fd_providers s) (num_fd_providers_to_enable s)
    (num_fd_providers_enabled s) (num_fd_providers_initialized s)
    (shm_current_fd s) (shm_fd_lifetime s) (max_children s) (ext s) (trace s).

Definition set_num_fd_providers (n : Z) (s : state) : state :=
  mk_state (fd_providers s) n (num_fd_providers_to_enable s)
    (num_fd_providers_enabled s) (num_fd_providers_initialized s)
    (shm_current_fd s) (shm_fd_lifetime s) (max_children s) (ext s) (trace s).

Definition set_to_enable (n : Z) (s : state) : state :=
  mk_state (fd_providers s) (num_fd_providers s) n
    (num_fd_providers_enabled s) (num_fd_providers_initialized s)
    (shm_current_fd s) (shm_fd_lifetime s) (max_children s) (ext s) (trace s).

Definition set_counts (en ini : Z) (s : state) : state :=
  mk_state (fd_providers s) (num_fd_providers s) (num_fd_providers_to_enable s)
    en ini
    (shm_current_fd s) (shm_fd_lifetime s) (max_children s) (ext s) (trace s).

Definition set_current_fd (fd : Z) (s : state) : state :=
  mk_state (fd_providers s) (num_fd_providers s) (num_fd_providers_to_enable s)
    (num_fd_providers_enabled s) (num_fd_providers_initialized s)
    fd (shm_fd_lifetime s) (max_children s) (ext s) (trace s).

Definition set_fd_lifetime (n : Z) (s : state) : state :=
  mk_state (fd_providers s) (num_fd_providers s) (num_fd_providers_to_enable s)
    (num_fd_providers_enabled s) (num_fd_providers_initialized s)
    (shm_current_fd s) n (max_children s) (ext s) (trace s).

Definition set_ext (e : env) (s : state) : state :=
  mk_state (fd_providers s) (num_fd_providers s) (num_fd_providers_to_enable s)
    (num_fd_providers_enabled s) (num_fd_providers_initialized s)
    (shm_current_fd s) (shm_fd_lifetime s) (max_children s) e (trace s).

Definition log (ev : event) (s : state) : state :=
  mk_state (fd_providers s) (num_fd_providers s) (num_fd_providers_to_enable s)
    (num_fd_providers_enabled s) (num_fd_providers_initialized s)
    (shm_current_fd s) (shm_fd_lifetime s) (max_children s) (ext s)
    (ev :: trace s).

Definition output (m : message) (s : state) : state := log (EvOutput m) s.

(** How a call ends: it returns, the process exits, its behaviour is
    undefined (a division by zero, a read outside an allocated buffer),
    or the iteration bound of the model is reached. *)
Inductive outcome (A : Type) : Type :=
| Done (a : A) (s : state)
| Exit (status : Z) (s : state)
| Fault
| OutOfFuel.

Arguments Done {A} a s.
Arguments Exit {A} status s.
Arguments Fault {A}.
Arguments OutOfFuel {A}.

Definition bind {A B : Type} (c : outcome A) (k : A -> state -> outcome B)
  : outcome B :=
  match c with
  | Done a s => k a s
  | Exit st s => Exit st s
  | Fault => Fault
  | OutOfFuel => OutOfFuel
  end.

(** ** Random primitives *)

(** One draw of [rnd()], an [unsigned int]. *)
Definition rnd32 (s : state) : Z * state :=
  let '(r, e) := rnd (ext s) in
  (wrap32 r, log (EvRnd (wrap32 r)) (set_ext e s)).

(** Modelled from the spec: the macro RAND_BOOL of random.h is not among
    the sources; the spec calls it the flip of a fair coin, a boolean
    primitive built on the generator.  One draw, its low bit. *)
Definition RAND_BOOL (s : state) : bool * state :=
  let '(r, s1) := rnd32 s in (Z.odd r, s1).

(** Modelled from the spec: the macro RAND_RANGE of random.h is not among
    the sources; the spec calls it a random value in the range
    [[lo, hi]], both endpoints inclusive.  One draw, reduced into the
    range. *)
Definition RAND_RANGE (lo hi : Z) (s : state) : Z * state :=
  let '(r, s1) := rnd32 s in (lo + r mod (hi - lo + 1), s1).

(** ** Registration *)

(** add_to_prov_list: the new node is zeroed, then [name], [enabled],
    [open] and [get] are copied; it goes to the tail of the list. *)
Definition add_to_prov_list (prov : fd_provider) (s : state) : state :=
  let newnode := mk_provider (name prov) (enabled prov) false (open prov) (get prov) in
  set_providers (fd_providers s ++ [newnode])
    (set_num_fd_providers (incr (num_fd_providers s)) s).

(** setup_fd_providers: an empty list, then one [add_to_prov_list] per
    provider of the table (the thirteen [*_fd_provider] structures, whose
    definitions are with the providers), then the count is printed. *)
Definition setup_fd_providers (table : list fd_provider) (s : state) : state :=
  let s1 := fold_left (fun acc prov => add_to_prov_list prov acc) table
              (set_providers [] s) in
  output (MsgRegistered (num_fd_providers s1)) s1.

(** The process before [setup_fd_providers]: the static counters are 0. *)
Definition boot (e : env) (children cur life : Z) : state :=
  mk_state [] 0 0 0 0 cur life children e [].

(** ** The initialization scheduler *)

(** The body of the loop of [__open_fds] at the node at position [idx]. *)
Definition open_node (do_rand : bool) (idx : nat) (p : fd_provider) (s : state)
  : fd_provider * state :=
  if negb (enabled p) then (p, s)            (* disabled on cmdline *)
  else if initialized p then (p, s)          (* already done *)
  else
    let '(skip, s1) := if do_rand then RAND_BOOL s else (false, s) in
    if skip then (p, s1)
    else
      let '(ok, e) := open p (ext s1) in
      let s2 := log (EvOpen idx ok) (set_ext e s1) in
      if ok then
        (set_initialized true (set_enabled true p),
         set_counts (incr (num_fd_providers_enabled s2))
                    (incr (num_fd_providers_initialized s2)) s2)
      else (set_enabled false p, s2).

(** list_for_each over the nodes from position [idx] on; the nodes are
    written back into the state when the walk ends. *)
Fixpoint open_nodes (do_rand : bool) (idx : nat) (nodes : list fd_provider)
  (s : state) : list fd_provider * state :=
  match nodes with
  | [] => ([], s)
  | p :: rest =>
      let '(p', s1) := open_node do_rand idx p s in
      let '(rest', s2) := open_nodes do_rand (S idx) rest s1 in
      (p' :: rest', s2)
  end.

Definition __open_fds (do_rand : bool) (s : state) : state :=
  let '(l, s1) := open_nodes do_rand 0 (fd_providers s) s in
  set_providers l s1.

(** The first loop of [open_fds]: open half the providers randomly. *)
Fixpoint open_fds_random (fuel : nat) (s : state) : outcome unit :=
  if num_fd_providers_initialized s <? num_fd_providers_to_enable s / 2 then
    match fuel with
    | O => OutOfFuel
    | S fuel' => open_fds_random fuel' (__open_fds true s)
    end
  else Done tt s.

Definition open_fds (fuel : nat) (s : state) : outcome bool :=
  bind (open_fds_random fuel s) (fun _ s1 =>
    let s2 := __open_fds false s1 in         (* now open any leftovers *)
    Done true
      (output (MsgSummary (num_fd_providers_enabled s2)
                          (num_fd_providers_initialized s2)) s2)).

(** ** The selectors *)

(** list_for_each with the counter [j]: the node at which [i == j], with
    its position. *)
Fixpoint find_node (i j : Z) (idx : nat) (nodes : list fd_provider)
  : option (nat * fd_provider) :=
  match nodes with
  | [] => None
  | p :: rest =>
      if i =? j then Some (idx, p)
      else find_node i (incr j) (S idx) rest
  end.

(** The loop [while (fd < 0)] of [get_new_random_fd]; every [goto retry]
    and every turn of the loop takes one unit of fuel. *)
Fixpoint sample_fd (fuel : nat) (s : state) : outcome Z :=
  match fuel with
  | O => OutOfFuel
  | S fuel' =>
      let '(r, s1) := rnd32 s in
      if num_fd_providers s1 =? 0 then Fault
      else
        let i := r mod num_fd_providers s1 in
        match find_node i 0 0 (fd_providers s1) with
        | None => sample_fd fuel' s1
        | Some (idx, provider) =>
            if negb (enabled provider) then sample_fd fuel' s1
            else if negb (initialized provider) then sample_fd fuel' s1
            else
              let '(fd, e) := get provider (ext s1) in
              let s2 := log (EvGet idx fd) (set_ext e s1) in
              if fd <? 0 then sample_fd fuel' s2 else Done fd s2
        end
  end.

Definition get_new_random_fd (fuel : nat) (s : state) : outcome Z :=
  if num_fd_providers_enabled s =? 0 then Done (-1) s
  else if num_fd_providers_initialized s =? 0 then Done (-1) s
  else sample_fd fuel s.

(** The branch [shm->fd_lifetime == 0] of [get_random_fd]: a new
    descriptor and a new lifetime. *)
Definition resample (fuel : nat) (s : state) : outcome unit :=
  bind (get_new_random_fd fuel s) (fun fd s1 =>
    let s2 := set_current_fd fd s1 in
    let '(life, s3) :=
      if max_children s2 >? 5 then RAND_RANGE 5 (max_children s2) s2
      else RAND_RANGE (max_children s2) 5 s2 in
    Done tt (set_fd_lifetime (wrap32 life) s3)).

(** The [if]/[else] at the label [regen]. *)
Definition lease_step (fuel : nat) (s : state) : outcome unit :=
  if shm_fd_lifetime s =? 0 then resample fuel s
  else Done tt (set_fd_lifetime (decr (shm_fd_lifetime s)) s).

(** [get_random_fd] from the label [regen]; every [goto regen] takes one
    unit of [fuel], the inner selector runs with [inner]. *)
Fixpoint regen (fuel inner : nat) (s : state) : outcome Z :=
  match lease_step inner s with
  | Done _ s1 =>
      if shm_current_fd s1 =? 0 then
        match fuel with
        | O => OutOfFuel
        | S fuel' => regen fuel' inner (set_fd_lifetime 0 s1)
        end
      else Done (shm_current_fd s1) s1
  | Exit st s1 => Exit st s1
  | Fault => Fault
  | OutOfFuel => OutOfFuel
  end.

Definition get_random_fd (fuel : nat) (s : state) : outcome Z :=
  regen fuel fuel s.

(** [n] consecutive calls of [get_random_fd], with the values returned. *)
Fixpoint get_random_fd_calls (fuel : nat) (n : nat) (s : state)
  : outcome (list Z) :=
  match n with
  | O => Done [] s
  | S n' =>
      bind (get_random_fd fuel s) (fun fd s1 =>
        bind (get_random_fd_calls fuel n' s1) (fun fds s2 =>
          Done (fd :: fds) s2))
  end.

(** ** The option processor *)

(** The walk shared by [enable_fds_param] and [disable_fds_param]: the
    first node whose name compares equal to [str] gets [enabled = v];
    [None] when the list ends without a match. *)
Fixpoint mark_node (v : bool) (str : string) (nodes : list fd_provider)
  : option (list fd_provider) :=
  match nodes with
  | [] => None
  | p :: rest =>
      if String.eqb (name p) str then Some (set_enabled v p :: rest)
      else option_map (cons p) (mark_node v str rest)
  end.

Definition enable_fds_param (str : string) (s : state) : outcome unit :=
  match mark_node true str (fd_providers s) with
  | Some l =>
      let s1 := output (MsgEnabled str) (set_providers l s) in
      Done tt (set_to_enable (incr (num_fd_providers_to_enable s1)) s1)
  | None =>
      Exit EXIT_FAILURE (output MsgUsage (output (MsgUnknownEnable str) s))
  end.

Definition disable_fds_param (str : string) (s : state) : outcome unit :=
  match mark_node false str (fd_providers s) with
  | Some l => Done tt (output (MsgDisabled str) (set_providers l s))
  | None =>
      Exit EXIT_FAILURE (output MsgUsage (output (MsgUnknownDisable str) s))
  end.

(** [if (enable == TRUE) enable_fds_param(str); else disable_fds_param(str);] *)
Definition fds_param (enable : bool) (str : string) (s : state) : outcome unit :=
  if enable then enable_fds_param str s else disable_fds_param str s.

(** The first pass of the enable mode: mark everything disabled. *)
Definition disable_all (s : state) : state :=
  set_providers (map (set_enabled false) (fd_providers s)) s.

(** The loop [for (i = 0; i < len; i++)] with [n] turns left.  The
    character tested is [str[i]], at offset [str + i] of the buffer, where
    [str] is the start of the string being read and not the start of the
    buffer: at a comma that character is set to NUL, the string at [str]
    is processed and [str] becomes [str_orig + i + 1].  A read at an
    offset outside the buffer is undefined.  It returns [str] and the
    buffer. *)
Fixpoint scan_commas (n : nat) (enable : bool) (i str : nat)
  (buf : list ascii) (s : state) : outcome (nat * list ascii) :=
  match n with
  | O => Done (str, buf) s
  | S n' =>
      match nth_error buf (str + i) with
      | None => Fault
      | Some c =>
          if Ascii.eqb c COMMA then
            let buf1 := poke (str + i) NUL buf in
            bind (fds_param enable (c_str_at buf1 str) s) (fun _ s1 =>
              scan_commas n' enable (S i) (S i) buf1 s1)
          else scan_commas n' enable (S i) str buf s
      end
  end.

(** After the loop: [if (str < str_orig + len)], the last string. *)
Definition last_param (enable : bool) (len : nat) (r : nat * list ascii)
  (s : state) : outcome unit :=
  let '(str, buf) := r in
  if (str <? len)%nat then fds_param enable (c_str_at buf str) s
  else Done tt s.

Definition process_fds_param (param : string) (enable : bool) (s : state)
  : outcome unit :=
  let str_orig := strdup param in
  let len := strlen param in
  let s1 := if enable then disable_all s else s in
  bind (scan_commas len enable 0 0 str_orig s1) (last_param enable len).

(** ** The option processor as the specification words it *)

(** The tokens are processed in order; the first failure ends the run. *)
Fixpoint apply_tokens (enable : bool) (toks : list string) (s : state)
  : outcome unit :=
  match toks with
  | [] => Done tt s
  | t :: rest =>
      bind (fds_param enable t s) (fun _ s1 => apply_tokens enable rest s1)
  end.

(** A name is registered when some node of the list carries it. *)
Definition registered (s : state) (str : string) : Prop :=
  In str (map name (fd_providers s)).

(** The line printed for an unknown name, by mode. *)
Definition unknown_msg (enable : bool) (str : string) : message :=
  if enable then MsgUnknownEnable str else MsgUnknownDisable str.

End Fds.

Arguments Done {env A} a s.
Arguments Exit {env A} status s.
Arguments Fault {env A}.
Arguments OutOfFuel {env A}.

(** The parameter text split on commas. *)
Fixpoint split_commas (l : list ascii) : list (list ascii) :=
  match l with
  | [] => [[]]
  | c :: rest =>
      if Ascii.eqb c COMMA then [] :: split_commas rest
      else
        match split_commas rest with
        | t :: ts => (c :: t) :: ts
        | [] => [[c]]
        end
  end.

(** An empty trailing token is ignored. *)
Fixpoint drop_empty_last (ts : list (list ascii)) : list (list ascii) :=
  match ts with
  | [] => []
  | t :: rest =>
      match rest with
      | [] => match t with [] => [] | _ :: _ => [t] end
      | _ :: _ => t :: drop_empty_last rest
      end
  end.

Definition tokens (param : string) : list string :=
  map string_of_list_ascii
    (drop_empty_last (split_commas (list_ascii_of_string param))).

(** ** What the traces and the registry are measured by *)

(** The calls of [open()] on the provider at position [idx]. *)
Fixpoint opens (idx : nat) (tr : list event) : nat :=
  match tr with
  | [] => O
  | EvOpen j _ :: rest => (if Nat.eqb j idx then 1 else 0) + opens idx rest
  | _ :: rest => opens idx rest
  end.

(** The calls of [open()] that succeeded. *)
Fixpoint successful_opens (tr : list event) : nat :=
  match tr with
  | [] => O
  | EvOpen _ true :: rest => S (successful_opens rest)
  | _ :: rest => successful_opens rest
  end.

(** The range of a fresh lifetime for a number of children. *)
Definition lifetime_in_range (children life : Z) : Prop :=
  (children > 5 -> 5 <= life <= children)
  /\ (children <= 5 -> children <= life <= 5).

Section Lifetime.

Context {env : Type}.
Variable rnd : env -> Z * env.

(** The providers of a list that are initialized. *)
Fixpoint count_initialized (l : list (@fd_provider env)) : nat :=
  match l with
  | [] => O
  | p :: rest => (if initialized p then 1 else 0) + count_initialized rest
  end.

(** What a run of the scheduler with the new events [d] did to the
    provider at position [idx], [p] before and [p'] after: nothing, or one
    [open()] of an enabled provider that was not initialized, after which
    the provider is initialized (success) or disabled (failure). *)
Definition opened_at_most_once (idx : nat) (p p' : @fd_provider env)
  (d : list event) : Prop :=
  (opens idx d = 0%nat /\ p' = p)
  \/ (opens idx d = 1%nat /\ enabled p = true /\ initialized p = false
      /\ ((In (EvOpen idx true) d
           /\ p' = set_initialized true (set_enabled true p))
          \/ (In (EvOpen idx false) d /\ p' = set_enabled false p))).

(** What a run of the scheduler from [s] to [s'] with the new events [d]
    does: the counters of enabled and of initialized providers are
    incremented once per successful [open()], as many more providers are
    initialized, the list keeps its length and its count, and every
    provider has been opened at most once. *)
Definition scheduled (s s' : @state env) (d : list event) : Prop :=
  trace s' = d ++ trace s
  /\ count_initialized (fd_providers s')
     = (count_initialized (fd_providers s) + successful_opens d)%nat
  /\ num_fd_providers_enabled s'
     = Nat.iter (successful_opens d) incr (num_fd_providers_enabled s)
  /\ num_fd_providers_initialized s'
     = Nat.iter (successful_opens d) incr (num_fd_providers_initialized s)
  /\ num_fd_providers s' = num_fd_providers s
  /\ num_fd_providers_to_enable s' = num_fd_providers_to_enable s
  /\ List.length (fd_providers s') = List.length (fd_providers s)
  /\ (forall j : nat,
        (List.length (fd_providers s) <= j)%nat -> opens j d = 0%nat)
  /\ (forall (j : nat) (p : fd_provider),
        nth_error (fd_providers s) j = Some p ->
        exists p' : fd_provider,
          nth_error (fd_providers s') j = Some p'
          /\ opened_at_most_once j p p' d).

(** The counters that only a successful [open()] moves, with the number
    of successful [open()] calls so far. *)
Definition opened_counters (s : @state env) : Z * Z * nat :=
  (num_fd_providers_enabled s, num_fd_providers_initialized s,
   successful_opens (trace s)).

(** What the option processor leaves alone: the counters of the
    scheduler, the count of the list and the flags [initialized]. *)
Definition registry_shape (s : @state env) : Z * Z * Z * list bool :=
  (num_fd_providers_enabled s, num_fd_providers_initialized s,
   num_fd_providers s, map initialized (fd_providers s)).

(** The states of a process before initialization: the providers have
    been registered (fewer than 2^32 of them), then any number of option
    strings has been processed. *)
Inductive configured : @state env -> Prop :=
| configured_setup (table : list fd_provider) (e : env) (children cur life : Z) :
    Z.of_nat (List.length table) < 2 ^ 32 ->
    configured (setup_fd_providers table (boot e children cur life))
| configured_param (s s' : state) (param : string) (enable : bool) :
    configured s ->
    process_fds_param param enable s = Done tt s' ->
    configured s'.

(** The states of a process at any point of its life: after
    registration, any of the operations in any order, and writes of the
    other processes to the lease in shared memory. *)
Inductive reachable : @state env -> Prop :=
| reachable_setup (table : list fd_provider) (e : env) (children cur life : Z) :
    reachable (setup_fd_providers table (boot e children cur life))
| reachable_param (s s' : state) (param : string) (enable : bool) :
    reachable s ->
    process_fds_param param enable s = Done tt s' ->
    reachable s'
| reachable_open_fds (s s' : state) (fuel : nat) (r : bool) :
    reachable s ->
    open_fds rnd fuel s = Done r s' ->
    reachable s'
| reachable_get_new (s s' : state) (fuel : nat) (fd : Z) :
    reachable s ->
    get_new_random_fd rnd fuel s = Done fd s' ->
    reachable s'
| reachable_get (s s' : state) (fuel : nat) (fd : Z) :
    reachable s ->
    get_random_fd rnd fuel s = Done fd s' ->
    reachable s'
| reachable_shm (s : state) (cur life : Z) :
    reachable s ->
    reachable (set_fd_lifetime life (set_current_fd cur s)).

End Lifetime.

(** ** What the further properties are stated with *)

(** The [open()] calls of a trace, newest first: position and result. *)
Fixpoint open_calls (tr : list event) : list (nat * bool) :=
  match tr with
  | [] => []
  | EvOpen idx ok :: rest => (idx, ok) :: open_calls rest
  | _ :: rest => open_calls rest
  end.

Section Registry.

Context {env : Type}.

(** A provider that a pass of the scheduler would open: enabled and not
    yet initialized. *)
Definition pending (p : @fd_provider env) : bool :=
  enabled p && negb (initialized p).

(** A provider that the fresh selector accepts: enabled and initialized. *)
Definition usable (p : @fd_provider env) : bool :=
  enabled p && initialized p.

(** The node that [add_to_prov_list] makes of a static provider. *)
Definition registered_copy (prov : @fd_provider env) : @fd_provider env :=
  mk_provider (name prov) (enabled prov) false (open prov) (get prov).

(** The registry and what sizes it: everything but the lease, the world
    and the trace. *)
Definition registry_view (s : @state env)
  : list (@fd_provider env) * Z * Z * Z * Z * Z :=
  (fd_providers s, num_fd_providers s, num_fd_providers_to_enable s,
   num_fd_providers_enabled s, num_fd_providers_initialized s,
   max_children s).

(** The positions, from [idx] on, of the pending providers of a list. *)
Fixpoint pending_from (idx : nat) (l : list (@fd_provider env)) : list nat :=
  match l with
  | [] => []
  | p :: rest =>
      if pending p then idx :: pending_from (S idx) rest
      else pending_from (S idx) rest
  end.

(** The lease and the number of children. *)
Definition lease_view (s : @state env) : Z * Z * Z :=
  (shm_current_fd s, shm_fd_lifetime s, max_children s).

(** What identifies a provider: its name and its two functions. *)
Definition capability (p : @fd_provider env)
  : string * (env -> bool * env) * (env -> Z * env) :=
  (name p, open p, get p).

End Registry.

(** ** A small registry for the examples *)

(** The world of the examples is a counter, stepped by every draw of the
    generator; [open()] and [get()] of the providers leave it alone. *)
Definition open_ok (n : nat) : bool * nat := (true, n).
Definition open_fails (n : nat) : bool * nat := (false, n).
Definition get_const (fd : Z) (n : nat) : Z * nat := (fd, n).

(** A provider as its static structure declares it. *)
Definition provider_decl (nm : string) (en : bool)
  (op : nat -> bool * nat) (fd : Z) : fd_provider :=
  mk_provider nm en false op (get_const fd).

(** Three providers, enabled by default. *)
Definition abc_table : list fd_provider :=
  [ provider_decl "A" true open_ok 3;
    provider_decl "B" true open_fails 4;
    provider_decl "C" true open_ok 0 ].

(** The process after registration, with eight children and a lease that
    has never been used. *)
Definition abc_state : state := setup_fd_providers abc_table (boot 0%nat 8 0 0).

(** The state a run returns with ([dflt] when it does not return). *)
Definition state_of {A : Type} (o : @outcome nat A) (dflt : @state nat)
  : @state nat :=
  match o with
  | Done _ s => s
  | _ => dflt
  end.

(** The same after "A," in the enable mode: A enabled, B and C disabled. *)
Definition abc_A_enabled : state :=
  state_of (process_fds_param "A," true abc_state) abc_state.

(** A generator that returns every value twice. *)
Definition slow_rnd (n : nat) : Z * nat := (Z.of_nat (n / 2), S n).

(** Four providers: one whose [open()] fails, one that hands out the
    descriptor 0. *)
Definition fds_table : list fd_provider :=
  [ provider_decl "files" true open_ok 3;
    provider_decl "sockets" true open_fails 4;
    provider_decl "pipes" true open_ok 0;
    provider_decl "epoll" true open_ok 7 ].

Definition fds_state : state := setup_fd_providers fds_table (boot 0%nat 8 0 0).

(** After the scheduler. *)
Definition fds_opened : state :=
  state_of (open_fds slow_rnd 8 fds_state) fds_state.

(** After seven calls of the leased selector. *)
Definition fds_after_calls : state :=
  state_of (get_random_fd_calls slow_rnd 8 7 fds_opened) fds_opened.

(** After one call of the fresh selector. *)
Definition fds_sampled : state :=
  state_of (get_new_random_fd slow_rnd 8 fds_opened) fds_opened.

(** After a resampling of the lease. *)
Definition fds_resampled : state :=
  state_of (resample slow_rnd 8 fds_opened) fds_opened.

(** With "pipes" disabled on the command line: the options, the
    scheduler, one call of the leased selector, and the resampling that
    follows the end of that lease. *)
Definition fds_no_pipes : state :=
  state_of (process_fds_param "pipes" false fds_state) fds_state.

Definition fds_opened_no_pipes : state :=
  state_of (open_fds slow_rnd 8 fds_no_pipes) fds_no_pipes.

Definition fds_leased : state :=
  state_of (get_random_fd slow_rnd 8 fds_opened_no_pipes) fds_opened_no_pipes.

Definition fds_releases : state :=
  state_of (resample slow_rnd 8 (set_fd_lifetime 0 fds_leased)) fds_leased.

(** The four providers with the counter of requested providers at 4, and
    the scheduler run from there. *)
Definition fds_requested : state := set_to_enable 4 fds_state.

Definition fds_opened_in_passes : state :=
  state_of (open_fds slow_rnd 8 fds_requested) fds_requested.

(** A registry in which two providers carry the same name. *)
Definition twins_table : list fd_provider :=
  [ provider_decl "A" false open_ok 3;
    provider_decl "B" false open_ok 4;
    provider_decl "B" false open_fails 5 ].

Definition twins_state : state :=
  setup_fd_providers twins_table (boot 0%nat 8 0 0).

(** {A, B, C} after "A" in the enable mode twice and then in the disable
    mode: two requests counted, nothing enabled. *)
Definition abc_requested_twice : state :=
  state_of (process_fds_param "A" false
    (state_of (process_fds_param "A" true
      (state_of (process_fds_param "A" true abc_state) abc_state))
      abc_state))
    abc_state.

(** The four providers after "files" and then "epoll" in the enable mode:
    two requests counted, "epoll" alone enabled; and the scheduler run
    from there. *)
Definition fds_epoll_only : state :=
  state_of (process_fds_param "epoll" true
    (state_of (process_fds_param "files" true fds_state) fds_state))
    fds_state.

Definition fds_epoll_opened : state :=
  state_of (open_fds slow_rnd 8 fds_epoll_only) fds_epoll_only.

(** After the scheduler, "files" and "epoll" disabled in their turn: the
    counters stay at 2 and no provider is usable. *)
Definition fds_all_off : state :=
  state_of (process_fds_param "epoll" false
    (state_of (process_fds_param "files" false fds_opened_no_pipes)
       fds_opened_no_pipes))
    fds_opened_no_pipes.

(** A call of the leased selector before the scheduler, and the scheduler
    after it. *)
Definition fds_early_call : state :=
  state_of (get_random_fd slow_rnd 8 fds_state) fds_state.

Definition fds_opened_late : state :=
  state_of (open_fds slow_rnd 8 fds_early_call) fds_early_call.




(** The registry a call of [process_fds_param] works on once the first
    pass of the enable mode is over. *)
Definition after_first_pass (enable : bool) (s : @state nat) : @state nat :=
  if enable then disable_all s else s.



(** * Properties *)

(** ** C strings and tokens *)

(** A character that the hypothesis [H] keeps out of a list [c :: l]
    cannot be [c] ([E] says it is), and stays out of [l]. *)
Ltac head_is_excluded E H :=
  apply Ascii.eqb_eq in E; exfalso; apply H; left; exact E.

Ltac tail_excludes H :=
  let Hin := fresh "Hin" in intros Hin; apply H; right; exact Hin.

Lemma c_str_no_nul (l : list ascii) : ~ In NUL l -> c_str l = l.
Proof.
  induction l as [|c l IH]; intros Hn; [reflexivity|].
  simpl. destruct (Ascii.eqb c NUL) eqn:E.
  - head_is_excluded E Hn.
  - f_equal. apply IH. tail_excludes Hn.
Qed.

Lemma c_str_stops (l r : list ascii) :
  ~ In NUL l -> c_str (l ++ NUL :: r) = l.
Proof.
  induction l as [|c l IH]; intros Hn; [reflexivity|].
  simpl. destruct (Ascii.eqb c NUL) eqn:E.
  - head_is_excluded E Hn.
  - f_equal. apply IH. tail_excludes Hn.
Qed.

Lemma strlen_c_string (p : string) :
  is_c_string p -> strlen p = List.length (list_ascii_of_string p).
Proof. intros H. unfold strlen. rewrite c_str_no_nul by exact H. reflexivity. Qed.

Lemma strdup_c_string (p : string) :
  is_c_string p -> strdup p = list_ascii_of_string p ++ [NUL].
Proof. intros H. unfold strdup. rewrite c_str_no_nul by exact H. reflexivity. Qed.

Lemma nth_error_middle (l r : list ascii) (c : ascii) :
  nth_error (l ++ c :: r) (List.length l) = Some c.
Proof. induction l; simpl; auto. Qed.

Lemma poke_app (l r : list ascii) (c d : ascii) :
  poke (List.length l) d (l ++ c :: r) = l ++ d :: r.
Proof. induction l; simpl; [reflexivity | f_equal; assumption]. Qed.

Lemma poke_length (i : nat) (c : ascii) :
  forall buf : list ascii, List.length (poke i c buf) = List.length buf.
Proof.
  induction i as [|i IH]; intros [|b buf]; simpl; auto.
Qed.

Lemma split_commas_cons (l : list ascii) :
  exists t ts, split_commas l = t :: ts.
Proof.
  induction l as [|c l [t [ts IH]]]; simpl.
  - eauto.
  - destruct (Ascii.eqb c COMMA); [eauto|]. rewrite IH. eauto.
Qed.

(** A token ends at the first comma. *)
Lemma split_commas_token (cur rest : list ascii) :
  ~ In COMMA cur ->
  split_commas (cur ++ COMMA :: rest) = cur :: split_commas rest.
Proof.
  induction cur as [|c cur IH]; intros Hn; simpl.
  - reflexivity.
  - destruct (Ascii.eqb c COMMA) eqn:E.
    + head_is_excluded E Hn.
    + rewrite IH; [reflexivity|]. tail_excludes Hn.
Qed.

Lemma split_commas_last (cur : list ascii) :
  ~ In COMMA cur -> split_commas cur = [cur].
Proof.
  induction cur as [|c cur IH]; intros Hn; simpl.
  - reflexivity.
  - destruct (Ascii.eqb c COMMA) eqn:E.
    + head_is_excluded E Hn.
    + rewrite IH; [reflexivity|]. tail_excludes Hn.
Qed.

Lemma drop_empty_last_cons (t : list ascii) (l : list ascii) :
  drop_empty_last (t :: split_commas l) = t :: drop_empty_last (split_commas l).
Proof. destruct (split_commas_cons l) as [u [us E]]. rewrite E. reflexivity. Qed.

(** A text has no comma, or a first comma. *)
Lemma first_comma (l : list ascii) :
  ~ In COMMA l
  \/ exists mid tail : list ascii, l = mid ++ COMMA :: tail /\ ~ In COMMA mid.
Proof.
  induction l as [|c l IH].
  - left. intros [].
  - destruct (Ascii.eqb c COMMA) eqn:E.
    + apply Ascii.eqb_eq in E. subst c. right. exists [], l. split; [reflexivity|].
      intros [].
    + assert (Hc : c <> COMMA).
      { intros H. subst c. rewrite Ascii.eqb_refl in E. discriminate. }
      destruct IH as [IH|[mid [tail [E1 E2]]]].
      * left. intros [H|H]; [apply Hc; exact H | apply IH; exact H].
      * right. exists (c :: mid), tail. split; [subst l; reflexivity|].
        intros [H|H]; [apply Hc; exact H | apply E2; exact H].
Qed.

(** The first token of a text. *)
Lemma tokens_no_comma (p : string) :
  ~ In COMMA (list_ascii_of_string p) ->
  tokens p = match p with EmptyString => [] | _ => [p] end.
Proof.
  intros H. unfold tokens. rewrite split_commas_last by exact H.
  destruct p as [|c p]; [reflexivity|].
  cbn [list_ascii_of_string drop_empty_last map].
  change (c :: list_ascii_of_string p) with (list_ascii_of_string (String c p)).
  rewrite string_of_list_ascii_of_string. reflexivity.
Qed.

Lemma tokens_first_comma (p : string) (mid tail : list ascii) :
  list_ascii_of_string p = mid ++ COMMA :: tail ->
  ~ In COMMA mid ->
  tokens p
  = string_of_list_ascii mid
    :: map string_of_list_ascii (drop_empty_last (split_commas tail)).
Proof.
  intros E H. unfold tokens.
  rewrite E, split_commas_token, drop_empty_last_cons by exact H.
  reflexivity.
Qed.

Section Processor.

Context {env : Type}.
Implicit Types (s : @state env) (p : @fd_provider env) (l : list (@fd_provider env)).

Lemma bind_done (c : @outcome env unit) :
  bind c (fun _ s1 => Done tt s1) = c.
Proof. destruct c as [[] s1| | |]; reflexivity. Qed.

(** *** Lookup by name *)

Lemma mark_node_none (v : bool) (str : string) l :
  ~ In str (map name l) -> mark_node v str l = None.
Proof.
  induction l as [|p l IH]; intros Hn; simpl; [reflexivity|].
  destruct (String.eqb (name p) str) eqn:E.
  - apply String.eqb_eq in E. exfalso. apply Hn. left. exact E.
  - rewrite IH; [reflexivity|]. intros H. apply Hn. right. exact H.
Qed.

Lemma mark_node_absent_map (v : bool) (str : string) l :
  ~ In str (map name l) ->
  map (fun p => if String.eqb (name p) str then set_enabled v p else p) l = l.
Proof.
  induction l as [|p l IH]; intros Hn; simpl; [reflexivity|].
  destruct (String.eqb (name p) str) eqn:E.
  - apply String.eqb_eq in E. exfalso. apply Hn. left. exact E.
  - f_equal. apply IH. intros H. apply Hn. right. exact H.
Qed.

(** With unique names the walk changes every node of that name. *)
Lemma mark_node_some (v : bool) (str : string) l :
  NoDup (map name l) -> In str (map name l) ->
  mark_node v str l
  = Some (map (fun p => if String.eqb (name p) str then set_enabled v p else p) l).
Proof.
  induction l as [|p l IH]; intros Hd Hin; simpl in *; [contradiction|].
  inversion Hd as [|? ? Hnotin Hd']; subst.
  destruct (String.eqb (name p) str) eqn:E.
  - apply String.eqb_eq in E. subst str.
    rewrite mark_node_absent_map by exact Hnotin. reflexivity.
  - destruct Hin as [Hin|Hin].
    + subst str. rewrite String.eqb_refl in E. discriminate.
    + rewrite IH by assumption. reflexivity.
Qed.

Lemma fds_param_unknown (enable : bool) (str : string) s :
  ~ registered s str ->
  fds_param enable str s
  = Exit EXIT_FAILURE (output MsgUsage (output (unknown_msg enable str) s)).
Proof.
  intros Hn. unfold fds_param, enable_fds_param, disable_fds_param.
  destruct enable; rewrite mark_node_none by exact Hn; reflexivity.
Qed.

(** *** The scan of the buffer, as far as the first comma *)

(** Before the first comma [str] is the start of the buffer, and the
    loop reads the characters one after the other. *)
Lemma scan_commas_no_comma (enable : bool) :
  forall (rest cur : list ascii) s,
    ~ In COMMA rest ->
    scan_commas (List.length rest) enable (List.length cur) 0
      (cur ++ rest ++ [NUL]) s
    = Done (0%nat, cur ++ rest ++ [NUL]) s.
Proof.
  induction rest as [|c rest IH]; intros cur s Hc.
  - reflexivity.
  - cbn [List.length scan_commas Nat.add app].
    rewrite nth_error_middle.
    destruct (Ascii.eqb c COMMA) eqn:E.
    + head_is_excluded E Hc.
    + specialize (IH (cur ++ [c]) s).
      rewrite <- app_assoc, length_app in IH. cbn [app List.length] in IH.
      rewrite Nat.add_1_r in IH. apply IH. tail_excludes Hc.
Qed.

Lemma scan_commas_first_comma (enable : bool) (tail : list ascii) :
  forall (mid cur : list ascii) s,
    ~ In COMMA mid ->
    ~ In NUL (cur ++ mid) ->
    scan_commas (List.length (mid ++ COMMA :: tail)) enable (List.length cur) 0
      (cur ++ mid ++ COMMA :: tail ++ [NUL]) s
    = bind (fds_param enable (string_of_list_ascii (cur ++ mid)) s)
        (fun _ s1 =>
           scan_commas (List.length tail) enable
             (S (List.length (cur ++ mid))) (S (List.length (cur ++ mid)))
             (cur ++ mid ++ NUL :: tail ++ [NUL]) s1).
Proof.
  induction mid as [|c mid IH]; intros cur s Hc Hn.
  - cbn [app List.length scan_commas Nat.add].
    rewrite nth_error_middle. rewrite Ascii.eqb_refl.
    rewrite poke_app. unfold c_str_at. cbn [skipn].
    rewrite app_nil_r in *. rewrite c_str_stops by exact Hn. reflexivity.
  - cbn [app List.length scan_commas Nat.add].
    rewrite nth_error_middle.
    destruct (Ascii.eqb c COMMA) eqn:E.
    + head_is_excluded E Hc.
    + specialize (IH (cur ++ [c]) s).
      rewrite <- !app_assoc in IH. cbn [app] in IH.
      rewrite (length_app cur [c]) in IH. cbn [List.length] in IH.
      rewrite Nat.add_1_r in IH. apply IH; [tail_excludes Hc | exact Hn].
Qed.

(** *** At most one name *)

(** On a C string without a comma the processor is the token-by-token
    application. *)
Lemma process_fds_param_no_comma (param : string) (enable : bool) s :
  is_c_string param ->
  ~ In COMMA (list_ascii_of_string param) ->
  process_fds_param param enable s
  = apply_tokens enable (tokens param) (if enable then disable_all s else s).
Proof.
  intros Hn Hc. unfold process_fds_param.
  rewrite strdup_c_string, strlen_c_string by exact Hn.
  pose proof (scan_commas_no_comma enable (list_ascii_of_string param) []
                (if enable then disable_all s else s) Hc) as H.
  cbn [app List.length] in H. rewrite H. cbn [bind last_param].
  rewrite tokens_no_comma by exact Hc.
  destruct param as [|c param]; [reflexivity|].
  cbn [list_ascii_of_string List.length Nat.ltb Nat.leb apply_tokens].
  rewrite bind_done. f_equal. unfold c_str_at. cbn [skipn].
  change (c :: list_ascii_of_string param ++ [NUL])
    with (list_ascii_of_string (String c param) ++ [NUL]).
  rewrite c_str_stops by exact Hn.
  exact (string_of_list_ascii_of_string (String c param)).
Qed.

(** The same on a C string whose only comma is its last character. *)
Lemma process_fds_param_trailing_comma (param : string) (t : list ascii)
  (enable : bool) s :
  is_c_string param ->
  list_ascii_of_string param = t ++ [COMMA] ->
  ~ In COMMA t ->
  process_fds_param param enable s
  = apply_tokens enable (tokens param) (if enable then disable_all s else s).
Proof.
  intros Hn E Hc. unfold process_fds_param.
  rewrite strdup_c_string, strlen_c_string by exact Hn.
  rewrite (tokens_first_comma param t [] E Hc).
  cbn [split_commas drop_empty_last map apply_tokens].
  assert (Hnt : ~ In NUL ([] ++ t)).
  { cbn [app]. intros H. apply Hn. rewrite E. apply in_or_app. left. exact H. }
  pose proof (scan_commas_first_comma enable [] t []
                (if enable then disable_all s else s) Hc Hnt) as H.
  cbn [app List.length] in H. rewrite E. rewrite <- app_assoc. cbn [app].
  rewrite H.
  destruct (fds_param enable (string_of_list_ascii t)
              (if enable then disable_all s else s)) as [[] s1| | |];
    cbn [bind scan_commas last_param]; try reflexivity.
  replace (S (List.length t) <? List.length (t ++ [COMMA]))%nat with false.
  - reflexivity.
  - symmetry. apply Nat.ltb_ge. rewrite length_app. cbn [List.length]. lia.
Qed.

(** X4: with unique names, one registered name in the enable mode: the
    provider of that name ends enabled, every other one disabled, and the
    counter of requested providers is incremented once. *)
Lemma process_fds_param_enable_one_name (param : string) s :
  is_c_string param ->
  ~ In COMMA (list_ascii_of_string param) ->
  param <> EmptyString ->
  NoDup (map name (fd_providers s)) ->
  registered s param ->
  process_fds_param param true s
  = Done tt
      (mk_state
         (map (fun p => set_enabled (String.eqb (name p) param) p)
              (fd_providers s))
         (num_fd_providers s) (incr (num_fd_providers_to_enable s))
         (num_fd_providers_enabled s) (num_fd_providers_initialized s)
         (shm_current_fd s) (shm_fd_lifetime s) (max_children s) (ext s)
         (EvOutput (MsgEnabled param) :: trace s)).
Proof.
  intros Hn Hc He Hd Hr.
  rewrite process_fds_param_no_comma, tokens_no_comma by assumption.
  destruct param as [|c param]; [congruence|].
  cbn [apply_tokens fds_param]. unfold enable_fds_param.
  cbn [disable_all fd_providers set_providers].
  rewrite mark_node_some.
  - cbn [bind]. f_equal. unfold set_to_enable, output, log, set_providers.
    cbn [fd_providers num_fd_providers num_fd_providers_to_enable
         num_fd_providers_enabled num_fd_providers_initialized
         shm_current_fd shm_fd_lifetime max_children ext trace].
    f_equal. rewrite map_map. apply map_ext. intros p.
    cbn [name set_enabled].
    destruct (String.eqb (name p) (String c param)); reflexivity.
  - rewrite map_map. exact Hd.
  - rewrite map_map. exact Hr.
Qed.

(** *** Behind the first comma *)

(** Once [str] has moved behind a comma the offsets [str + i] run ahead
    of [i]; the last turn of the loop reads outside the buffer, unless
    a lookup has exited before: the loop of the model has no normal
    return. *)
Lemma scan_commas_past_the_end (enable : bool) :
  forall (n i str : nat) (buf : list ascii) s r s',
    (2 <= str)%nat ->
    (1 <= i)%nat ->
    (1 <= n)%nat ->
    List.length buf = (i + n + 1)%nat ->
    scan_commas n enable i str buf s <> Done r s'.
Proof.
  induction n as [|n IH]; intros i str buf s r s' Hs Hi Hn Hl; [lia|].
  cbn [scan_commas].
  destruct (nth_error buf (str + i)) as [c|] eqn:E; [|discriminate].
  assert (Hlt : (str + i < List.length buf)%nat)
    by (apply nth_error_Some; congruence).
  destruct n as [|n]; [lia|].
  destruct (Ascii.eqb c COMMA).
  - destruct (fds_param enable (c_str_at (poke (str + i) NUL buf) str) s)
      as [[] s1| | |]; cbn [bind]; try discriminate.
    apply IH; [lia | lia | lia | rewrite poke_length; lia].
  - apply IH; [lia | lia | lia | lia].
Qed.

(** The same for the whole call: on a C string with a first name that is
    not empty, a comma and at least one more character, the model has no
    normal return. *)
Lemma inner_comma_not_done (param : string) (t : list ascii)
  (c : ascii) (tail : list ascii) (enable : bool) s s' :
  is_c_string param ->
  list_ascii_of_string param = t ++ COMMA :: c :: tail ->
  t <> [] ->
  ~ In COMMA t ->
  process_fds_param param enable s <> Done tt s'.
Proof.
  intros Hn E Ht Hc. unfold process_fds_param.
  rewrite strdup_c_string, strlen_c_string by exact Hn.
  assert (Hnt : ~ In NUL ([] ++ t)).
  { cbn [app]. intros H. apply Hn. rewrite E. apply in_or_app. left. exact H. }
  pose proof (scan_commas_first_comma enable (c :: tail) t []
                (if enable then disable_all s else s) Hc Hnt) as H.
  cbn [app List.length] in H. rewrite E. rewrite <- app_assoc. cbn [app].
  rewrite H.
  destruct (fds_param enable (string_of_list_ascii t)
              (if enable then disable_all s else s)) as [[] s1| | |];
    cbn [bind]; try discriminate.
  cbn [List.length].
  destruct (scan_commas (S (List.length tail)) enable (S (List.length t))
              (S (List.length t)) (t ++ NUL :: c :: tail ++ [NUL]) s1)
    as [r s2| | |] eqn:S; cbn [bind]; try discriminate.
  exfalso. revert S. apply scan_commas_past_the_end.
  - destruct t; [congruence | cbn [List.length]; lia].
  - lia.
  - lia.
  - rewrite !length_app. cbn [List.length]. rewrite length_app.
    cbn [List.length]. lia.
Qed.

(** A lookup returns or exits with EXIT_FAILURE; the loop and the call
    add one more way to stop, the read outside the buffer. *)
Lemma fds_param_outcome (enable : bool) (str : string) s :
  (exists s1, fds_param enable str s = Done tt s1)
  \/ (exists s1, fds_param enable str s = Exit EXIT_FAILURE s1).
Proof.
  unfold fds_param, enable_fds_param, disable_fds_param.
  destruct enable.
  - destruct (mark_node true str (fd_providers s));
      [left | right]; eexists; reflexivity.
  - destruct (mark_node false str (fd_providers s));
      [left | right]; eexists; reflexivity.
Qed.

Lemma scan_commas_outcome (enable : bool) :
  forall (n i str : nat) (buf : list ascii) s,
    (exists r s1, scan_commas n enable i str buf s = Done r s1)
    \/ (exists s1, scan_commas n enable i str buf s = Exit EXIT_FAILURE s1)
    \/ scan_commas n enable i str buf s = Fault.
Proof.
  induction n as [|n IH]; intros i str buf s; cbn [scan_commas].
  - left. eexists. eexists. reflexivity.
  - destruct (nth_error buf (str + i)) as [c|]; [|right; right; reflexivity].
    destruct (Ascii.eqb c COMMA); [|apply IH].
    destruct (fds_param_outcome enable
                (c_str_at (poke (str + i) NUL buf) str) s) as [[s1 H]|[s1 H]];
      rewrite H; cbn [bind].
    + apply IH.
    + right. left. exists s1. reflexivity.
Qed.

Lemma process_fds_param_outcome (param : string) (enable : bool) s :
  (exists s1, process_fds_param param enable s = Done tt s1)
  \/ (exists s1, process_fds_param param enable s = Exit EXIT_FAILURE s1)
  \/ process_fds_param param enable s = Fault.
Proof.
  unfold process_fds_param.
  destruct (scan_commas_outcome enable (strlen param) 0 0 (strdup param)
              (if enable then disable_all s else s))
    as [[[str buf] [s1 H]]|[[s1 H]|H]]; rewrite H; cbn [bind].
  - unfold last_param. destruct (str <? strlen param)%nat.
    + destruct (fds_param_outcome enable (c_str_at buf str) s1)
        as [[s2 H2]|[s2 H2]]; rewrite H2.
      * left. exists s2. reflexivity.
      * right. left. exists s2. reflexivity.
    + left. exists s1. reflexivity.
  - right. left. exists s1. reflexivity.
  - right. right. reflexivity.
Qed.

(** X6: on a C string with a first name that is not empty, a comma and at
    least one more character, a run of the call ends in one of two ways:
    a lookup exits with EXIT_FAILURE, or the loop comes to test [str[i]]
    at an offset outside the copy made by [strdup], where the behaviour
    of the C program is undefined.  [Fault] is that read; what a build
    does after it is not part of the model. *)
Lemma process_fds_param_inner_comma (param : string) (t : list ascii)
  (c : ascii) (tail : list ascii) (enable : bool) s :
  is_c_string param ->
  list_ascii_of_string param = t ++ COMMA :: c :: tail ->
  t <> [] ->
  ~ In COMMA t ->
  process_fds_param param enable s = Fault
  \/ exists s', process_fds_param param enable s = Exit EXIT_FAILURE s'.
Proof.
  intros Hn E Ht Hc.
  destruct (process_fds_param_outcome param enable s) as [[s1 H]|[[s1 H]|H]].
  - exfalso. exact (inner_comma_not_done param t c tail enable s s1 Hn E Ht Hc H).
  - right. exists s1. exact H.
  - left. exact H.
Qed.

Lemma registered_after_first_pass (enable : bool) s (t : string) :
  registered (if enable then disable_all s else s) t <-> registered s t.
Proof.
  unfold registered. destruct enable; [|reflexivity].
  cbn [disable_all fd_providers set_providers]. rewrite map_map. reflexivity.
Qed.

(** X19: when the first token of the parameter string names no registered
    provider, the processor, in either mode, exits with the status
    EXIT_FAILURE, which is not 0, after the complaint about that name and
    then the usage text, whatever follows the token; at the exit the
    registry is the one the call started with in the disable mode, and
    the one the first pass left, every provider disabled, in the enable
    mode. *)
Theorem process_fds_param_first_unknown (param : string) (enable : bool) s
  (bad : string) (post : list string) :
  is_c_string param ->
  tokens param = bad :: post ->
  ~ registered s bad ->
  process_fds_param param enable s
  = Exit EXIT_FAILURE
      (output MsgUsage
         (output (unknown_msg enable bad)
            (if enable then disable_all s else s)))
  /\ EXIT_FAILURE <> 0.
Proof.
  intros Hn Ht Hb. split; [|discriminate].
  assert (Hb' : ~ registered (if enable then disable_all s else s) bad).
  { intros H. apply Hb. apply (registered_after_first_pass enable s bad). exact H. }
  destruct (first_comma (list_ascii_of_string param)) as [Hc|[mid [tail [E Hc]]]].
  - rewrite process_fds_param_no_comma by assumption. rewrite Ht.
    cbn [apply_tokens]. rewrite fds_param_unknown by exact Hb'. reflexivity.
  - rewrite (tokens_first_comma param mid tail E Hc) in Ht.
    injection Ht as Ht _. subst bad.
    unfold process_fds_param.
    rewrite strdup_c_string, strlen_c_string by exact Hn.
    assert (Hnt : ~ In NUL ([] ++ mid)).
    { cbn [app]. intros H. apply Hn. rewrite E. apply in_or_app. left. exact H. }
    pose proof (scan_commas_first_comma enable tail mid []
                  (if enable then disable_all s else s) Hc Hnt) as H.
    cbn [app List.length] in H. rewrite E. rewrite <- app_assoc. cbn [app].
    rewrite H, fds_param_unknown by exact Hb'. reflexivity.
Qed.

(** C10: on the empty string the enable mode returns normally with the
    registry it started with, provider by provider and in the same order,
    where only the [enabled] flag of each provider has been cleared: the
    names, the [initialized] flags and the [open] and [get] functions are
    kept, no provider is enabled, the four counters (the counter of
    requested providers among them), the lease and the world are
    unchanged, and nothing is printed. *)
Theorem process_fds_param_empty_enable s :
  process_fds_param EmptyString true s = Done tt (disable_all s)
  /\ Forall (fun p => enabled p = false) (fd_providers (disable_all s))
  /\ num_fd_providers_to_enable (disable_all s) = num_fd_providers_to_enable s
  /\ trace (disable_all s) = trace s
  /\ process_fds_param EmptyString true s
     = Done tt
         (mk_state
            (map (fun p => mk_provider (name p) false (initialized p)
                             (open p) (get p))
                 (fd_providers s))
            (num_fd_providers s) (num_fd_providers_to_enable s)
            (num_fd_providers_enabled s) (num_fd_providers_initialized s)
            (shm_current_fd s) (shm_fd_lifetime s) (max_children s) (ext s)
            (trace s))
  /\ List.length (fd_providers (disable_all s)) = List.length (fd_providers s)
  /\ (forall (idx : nat) p,
        nth_error (fd_providers s) idx = Some p ->
        exists p',
          nth_error (fd_providers (disable_all s)) idx = Some p'
          /\ name p' = name p
          /\ enabled p' = false
          /\ initialized p' = initialized p
          /\ open p' = open p
          /\ get p' = get p).
Proof.
  split; [reflexivity|]. split; [|split; [reflexivity|split; [reflexivity|]]].
  - cbn [disable_all fd_providers set_providers].
    apply Forall_forall. intros p Hin. apply in_map_iff in Hin.
    destruct Hin as [q [E _]]. subst p. reflexivity.
  - split; [reflexivity|]. split.
    + cbn [disable_all fd_providers set_providers]. apply length_map.
    + intros idx p Hp. exists (set_enabled false p).
      cbn [disable_all fd_providers set_providers].
      rewrite nth_error_map, Hp. cbn [option_map].
      repeat split; reflexivity.
Qed.

End Processor.

(** ** The selectors *)

Section Selectors.

Context {env : Type}.
Variable rnd : env -> Z * env.
Implicit Types (s : @state env) (p : @fd_provider env) (l : list (@fd_provider env)).

(** The node found by the counted walk is the node at that position. *)
Lemma find_node_nth (i : Z) :
  forall l (j : Z) (idx k : nat) p,
    find_node i j idx l = Some (k, p) ->
    exists m : nat, k = (idx + m)%nat /\ nth_error l m = Some p.
Proof.
  induction l as [|q l IH]; intros j idx k p H; simpl in H; [discriminate|].
  destruct (i =? j).
  - inversion H; subst. exists 0%nat. split; [lia | reflexivity].
  - destruct (IH _ _ _ _ H) as [m [E1 E2]].
    exists (S m). split; [lia | exact E2].
Qed.

(** What the sampling loop returns comes from [get()] of a provider that
    is enabled and initialized; the loop changes the world and the trace
    only. *)
Lemma sample_fd_result :
  forall (fuel : nat) s (fd : Z) s',
    sample_fd rnd fuel s = Done fd s' ->
    0 <= fd
    /\ (exists (idx : nat) p (e : env) (tr : list event),
          nth_error (fd_providers s) idx = Some p
          /\ enabled p = true /\ initialized p = true
          /\ get p e = (fd, ext s')
          /\ trace s' = EvGet idx fd :: tr)
    /\ s' = mk_state (fd_providers s) (num_fd_providers s)
              (num_fd_providers_to_enable s) (num_fd_providers_enabled s)
              (num_fd_providers_initialized s) (shm_current_fd s)
              (shm_fd_lifetime s) (max_children s) (ext s') (trace s').
Proof.
  induction fuel as [|fuel IH]; intros s fd s' H; simpl in H; [discriminate|].
  unfold rnd32 in H. destruct (rnd (ext s)) as [r e].
  cbn [num_fd_providers fd_providers log set_ext] in H.
  destruct (num_fd_providers s =? 0); [discriminate|].
  destruct (find_node _ 0 0 (fd_providers s)) as [[idx p]|] eqn:F;
    [|exact (IH _ _ _ H)].
  destruct (enabled p) eqn:En; cbn [negb] in H; [|exact (IH _ _ _ H)].
  destruct (initialized p) eqn:Ini; cbn [negb] in H; [|exact (IH _ _ _ H)].
  cbn [ext log set_ext] in H. destruct (get p e) as [v e'] eqn:G.
  destruct (v <? 0) eqn:Neg; [exact (IH _ _ _ H)|].
  inversion H; subst fd s'. clear H.
  apply Z.ltb_ge in Neg. split; [exact Neg|]. split.
  - destruct (find_node_nth _ _ _ _ _ _ F) as [m [E1 E2]]. simpl in E1. subst m.
    exists idx, p, e, (EvRnd (wrap32 r) :: trace s).
    repeat split; auto.
  - reflexivity.
Qed.

(** C2: with the counter of enabled providers or the counter of
    initialized providers at 0 the fresh selector returns -1 whatever the
    fuel and leaves the state, its world and its trace as they were (no
    draw, no call of a provider); with both counters not 0, a value it
    returns is not negative and is the result of [get()] of a provider of
    the list whose flags [enabled] and [initialized] are both set, the
    call being the newest event of the trace. *)
Theorem get_new_random_fd_result (fuel : nat) s :
  (num_fd_providers_enabled s = 0 \/ num_fd_providers_initialized s = 0 ->
   get_new_random_fd rnd fuel s = Done (-1) s)
  /\ (num_fd_providers_enabled s <> 0 ->
      num_fd_providers_initialized s <> 0 ->
      forall (fd : Z) s',
        get_new_random_fd rnd fuel s = Done fd s' ->
        0 <= fd
        /\ fd_providers s' = fd_providers s
        /\ exists (idx : nat) p (e : env) (tr : list event),
             nth_error (fd_providers s) idx = Some p
             /\ enabled p = true /\ initialized p = true
             /\ get p e = (fd, ext s')
             /\ trace s' = EvGet idx fd :: tr).
Proof.
  unfold get_new_random_fd. split.
  - intros [H|H]; rewrite H; simpl; [reflexivity|].
    destruct (num_fd_providers_enabled s =? 0); reflexivity.
  - intros He Hi fd s' H.
    apply Z.eqb_neq in He, Hi. rewrite He, Hi in H.
    destruct (sample_fd_result _ _ _ _ H) as [A [B C]].
    split; [exact A|]. split; [|exact B].
    rewrite C. reflexivity.
Qed.

(** *** The leased selector *)

Lemma wrap32_small (z : Z) : 0 <= z < 2 ^ 32 -> wrap32 z = z.
Proof. intros H. unfold wrap32. apply Z.mod_small. exact H. Qed.

Lemma get_new_random_fd_frame (fuel : nat) s (fd : Z) s' :
  get_new_random_fd rnd fuel s = Done fd s' ->
  s' = mk_state (fd_providers s) (num_fd_providers s)
         (num_fd_providers_to_enable s) (num_fd_providers_enabled s)
         (num_fd_providers_initialized s) (shm_current_fd s)
         (shm_fd_lifetime s) (max_children s) (ext s') (trace s').
Proof.
  unfold get_new_random_fd. intros H.
  destruct (num_fd_providers_enabled s =? 0).
  { inversion H; subst. destruct s'; reflexivity. }
  destruct (num_fd_providers_initialized s =? 0).
  { inversion H; subst. destruct s'; reflexivity. }
  apply sample_fd_result in H. apply H.
Qed.

Lemma RAND_RANGE_bounds (lo hi : Z) s :
  lo <= hi ->
  lo <= fst (RAND_RANGE rnd lo hi s) <= hi
  /\ max_children (snd (RAND_RANGE rnd lo hi s)) = max_children s
  /\ shm_current_fd (snd (RAND_RANGE rnd lo hi s)) = shm_current_fd s.
Proof.
  intros H. unfold RAND_RANGE, rnd32. destruct (rnd (ext s)) as [r e].
  cbn [fst snd]. split; [|split; reflexivity].
  pose proof (Z.mod_pos_bound (wrap32 r) (hi - lo + 1)). lia.
Qed.

(** The lifetime that a resampling stores, and what it keeps. *)
Lemma resample_range (fuel : nat) s s' :
  0 <= max_children s < 2 ^ 32 ->
  resample rnd fuel s = Done tt s' ->
  lifetime_in_range (max_children s) (shm_fd_lifetime s')
  /\ max_children s' = max_children s.
Proof.
  intros Hmc H. unfold resample in H.
  destruct (get_new_random_fd rnd fuel s) as [fd s1| | |] eqn:G;
    cbn [bind] in H; try discriminate.
  apply get_new_random_fd_frame in G.
  assert (Hm : max_children s1 = max_children s) by (rewrite G; reflexivity).
  change (max_children (set_current_fd fd s1)) with (max_children s1) in H.
  rewrite Hm in H.
  destruct (max_children s >? 5) eqn:C.
  - apply Z.gtb_lt in C.
    pose proof (RAND_RANGE_bounds 5 (max_children s) (set_current_fd fd s1)) as B.
    destruct (RAND_RANGE rnd 5 (max_children s) (set_current_fd fd s1)) as [life s3].
    cbn [fst snd] in B. destruct B as [B1 [B2 _]]; [lia|].
    inversion H; subst s'. cbn [shm_fd_lifetime max_children set_fd_lifetime].
    rewrite wrap32_small by lia. split; [|rewrite B2; exact Hm].
    split; lia.
  - assert (C' : max_children s <= 5).
    { destruct (Z.gtb_spec (max_children s) 5); [discriminate | lia]. }
    pose proof (RAND_RANGE_bounds (max_children s) 5 (set_current_fd fd s1)) as B.
    destruct (RAND_RANGE rnd (max_children s) 5 (set_current_fd fd s1)) as [life s3].
    cbn [fst snd] in B. destruct B as [B1 [B2 _]]; [lia|].
    inversion H; subst s'. cbn [shm_fd_lifetime max_children set_fd_lifetime].
    rewrite wrap32_small by (change (2 ^ 32) with 4294967296; lia).
    split; [|rewrite B2; exact Hm].
    split; lia.
Qed.

Lemma regen_range :
  forall (fuel inner : nat) s (fd : Z) s',
    0 <= max_children s < 2 ^ 32 ->
    shm_fd_lifetime s = 0 ->
    regen rnd fuel inner s = Done fd s' ->
    lifetime_in_range (max_children s) (shm_fd_lifetime s').
Proof.
  induction fuel as [|fuel IH]; intros inner s fd s' Hmc Hl H;
    cbn [regen] in H; unfold lease_step in H; rewrite Hl in H;
    cbn [Z.eqb] in H;
    destruct (resample rnd inner s) as [[] s1| | |] eqn:R; try discriminate;
    destruct (resample_range _ _ _ Hmc R) as [Hr Hm];
    destruct (shm_current_fd s1 =? 0); try discriminate.
  - inversion H; subst. exact Hr.
  - rewrite <- Hm. apply (IH inner (set_fd_lifetime 0 s1) fd s').
    + cbn [max_children set_fd_lifetime]. rewrite Hm. exact Hmc.
    + reflexivity.
    + exact H.
  - inversion H; subst. exact Hr.
Qed.

(** C7: a resampling of the lease, the step itself and a call of the
    leased selector that starts with the lifetime at 0, stores a lifetime
    in the range from 5 to [max_children] when [max_children] is above 5,
    and in the range from [max_children] to 5 otherwise, [max_children]
    being an [unsigned int]. *)
Theorem fresh_lifetime_range (fuel : nat) s :
  0 <= max_children s < 2 ^ 32 ->
  (forall s', resample rnd fuel s = Done tt s' ->
              lifetime_in_range (max_children s) (shm_fd_lifetime s'))
  /\ (forall (fd : Z) s',
        shm_fd_lifetime s = 0 ->
        get_random_fd rnd fuel s = Done fd s' ->
        lifetime_in_range (max_children s) (shm_fd_lifetime s')).
Proof.
  intros Hmc. split.
  - intros s' H. apply (resample_range fuel s s' Hmc H).
  - intros fd s' Hl H. exact (regen_range _ _ _ _ _ Hmc Hl H).
Qed.

(** A call that returns, returns the stored descriptor, which is not 0. *)
Lemma regen_nonzero :
  forall (fuel inner : nat) s (fd : Z) s',
    regen rnd fuel inner s = Done fd s' ->
    fd <> 0 /\ shm_current_fd s' = fd.
Proof.
  induction fuel as [|fuel IH]; intros inner s fd s' H; cbn [regen] in H;
    destruct (lease_step rnd inner s) as [[] s1| | |]; try discriminate;
    destruct (shm_current_fd s1 =? 0) eqn:E; try discriminate.
  - inversion H; subst. split; [apply Z.eqb_neq; exact E | reflexivity].
  - exact (IH _ _ _ _ H).
  - inversion H; subst. split; [apply Z.eqb_neq; exact E | reflexivity].
Qed.

(** The jump back to [regen]: with the descriptor at 0 after the lease
    step, the lifetime is set to 0 and the next turn resamples. *)
Lemma regen_on_zero (fuel inner : nat) s s1 :
  lease_step rnd inner s = Done tt s1 ->
  shm_current_fd s1 = 0 ->
  regen rnd (S fuel) inner s = regen rnd fuel inner (set_fd_lifetime 0 s1)
  /\ lease_step rnd inner (set_fd_lifetime 0 s1)
     = resample rnd inner (set_fd_lifetime 0 s1).
Proof.
  intros H E. split.
  - cbn [regen]. rewrite H, E. reflexivity.
  - reflexivity.
Qed.

Lemma get_random_fd_calls_nonzero (fuel : nat) :
  forall (n : nat) s (fds : list Z) s',
    get_random_fd_calls rnd fuel n s = Done fds s' ->
    Forall (fun fd => fd <> 0) fds.
Proof.
  induction n as [|n IH]; intros s fds s' H; cbn [get_random_fd_calls] in H.
  - inversion H; subst. constructor.
  - destruct (get_random_fd rnd fuel s) as [fd s1| | |] eqn:G;
      cbn [bind] in H; try discriminate.
    destruct (get_random_fd_calls rnd fuel n s1) as [rest s2| | |] eqn:R;
      cbn [bind] in H; try discriminate.
    inversion H; subst. constructor.
    + apply (regen_nonzero _ _ _ _ _ G).
    + apply (IH _ _ _ R).
Qed.

(** C1: in a sequence of calls of the leased selector that all return, no
    value returned is 0; and whenever the lease step leaves the
    descriptor at 0, the call goes on from [regen] with the lifetime at 0,
    where the lease step is a resampling of the descriptor and of the
    lifetime. *)
Theorem get_random_fd_never_zero (fuel n : nat) s (fds : list Z) s' :
  get_random_fd_calls rnd fuel n s = Done fds s' ->
  Forall (fun fd => fd <> 0) fds
  /\ (forall (more inner : nat) s0 s1,
        lease_step rnd inner s0 = Done tt s1 ->
        shm_current_fd s1 = 0 ->
        regen rnd (S more) inner s0 = regen rnd more inner (set_fd_lifetime 0 s1)
        /\ lease_step rnd inner (set_fd_lifetime 0 s1)
           = resample rnd inner (set_fd_lifetime 0 s1)).
Proof.
  intros H. split.
  - exact (get_random_fd_calls_nonzero _ _ _ _ _ H).
  - intros more inner s0 s1 H0 E. exact (regen_on_zero more inner s0 s1 H0 E).
Qed.

(** *** Stickiness *)

Lemma decr_succ (k : nat) :
  Z.of_nat (S k) < 2 ^ 32 -> decr (Z.of_nat (S k)) = Z.of_nat k.
Proof.
  intros H. unfold decr. rewrite wrap32_small; lia.
Qed.

(** With a descriptor that is not 0 and a lifetime that is not 0 the call
    returns the descriptor and only decrements the lifetime. *)
Lemma regen_sticky (fuel inner : nat) s :
  shm_fd_lifetime s <> 0 ->
  shm_current_fd s <> 0 ->
  regen rnd fuel inner s
  = Done (shm_current_fd s) (set_fd_lifetime (decr (shm_fd_lifetime s)) s).
Proof.
  intros Hl Hc. apply Z.eqb_neq in Hl, Hc.
  destruct fuel; cbn [regen]; unfold lease_step; rewrite Hl;
    cbn [shm_current_fd set_fd_lifetime]; rewrite Hc; reflexivity.
Qed.

Lemma set_fd_lifetime_same s : set_fd_lifetime (shm_fd_lifetime s) s = s.
Proof. destruct s; reflexivity. Qed.

Lemma get_random_fd_calls_sticky (fuel : nat) :
  forall (j k : nat) s,
    shm_fd_lifetime s = Z.of_nat k ->
    Z.of_nat k < 2 ^ 32 ->
    shm_current_fd s <> 0 ->
    (j <= k)%nat ->
    get_random_fd_calls rnd fuel j s
    = Done (repeat (shm_current_fd s) j)
           (set_fd_lifetime (Z.of_nat (k - j)) s).
Proof.
  induction j as [|j IH]; intros k s Hl Hk Hc Hj.
  - cbn [get_random_fd_calls repeat]. rewrite Nat.sub_0_r, <- Hl.
    rewrite set_fd_lifetime_same. reflexivity.
  - destruct k as [|k]; [lia|].
    cbn [get_random_fd_calls repeat]. unfold get_random_fd.
    rewrite regen_sticky by (try exact Hc; rewrite Hl; lia).
    cbn [bind]. rewrite Hl, decr_succ by exact Hk.
    rewrite (IH k).
    + reflexivity.
    + reflexivity.
    + lia.
    + exact Hc.
    + lia.
Qed.

(** C6: let the stored descriptor be a value that an earlier call of the
    leased selector returned and the lifetime be [k], an [unsigned int].
    Then, for every [j] up to [k], the next [j] calls return that
    descriptor and leave the state as it was but for the lifetime, which
    is [k - j]: each call decrements it by one, and after [k] calls it is
    0.  The call after those resamples: it returns whatever descriptor
    the resampling stored, when that is not 0. *)
Theorem lease_stickiness (fuel0 fuel k : nat) s0 s_prev s (c : Z) :
  get_random_fd rnd fuel0 s0 = Done c s_prev ->
  shm_current_fd s = c ->
  shm_fd_lifetime s = Z.of_nat k ->
  Z.of_nat k < 2 ^ 32 ->
  (forall j : nat, (j <= k)%nat ->
     get_random_fd_calls rnd fuel j s
     = Done (repeat c j) (set_fd_lifetime (Z.of_nat (k - j)) s))
  /\ (forall s1,
        resample rnd fuel (set_fd_lifetime 0 s) = Done tt s1 ->
        shm_current_fd s1 <> 0 ->
        get_random_fd rnd fuel (set_fd_lifetime 0 s)
        = Done (shm_current_fd s1) s1).
Proof.
  intros Hprev Hc Hl Hk.
  assert (Hnz : shm_current_fd s <> 0).
  { rewrite Hc. apply (regen_nonzero _ _ _ _ _ Hprev). }
  split.
  - intros j Hj. rewrite <- Hc.
    apply get_random_fd_calls_sticky; assumption.
  - intros s1 R Hn. apply Z.eqb_neq in Hn.
    unfold get_random_fd.
    destruct fuel; cbn [regen]; unfold lease_step;
      cbn [shm_fd_lifetime set_fd_lifetime Z.eqb];
      rewrite R, Hn; reflexivity.
Qed.

End Selectors.

(** ** The initialization scheduler *)

Lemma opens_app (j : nat) (a b : list event) :
  opens j (a ++ b) = (opens j a + opens j b)%nat.
Proof.
  induction a as [|ev a IH]; [reflexivity|].
  destruct ev; cbn [app opens]; rewrite IH; lia.
Qed.

Lemma successful_opens_app (a b : list event) :
  successful_opens (a ++ b) = (successful_opens a + successful_opens b)%nat.
Proof.
  induction a as [|ev a IH]; [reflexivity|].
  destruct ev as [r|j [|]|j fd|m]; cbn [app successful_opens]; rewrite IH; lia.
Qed.

Lemma iter_incr_add (a b : nat) (x : Z) :
  Nat.iter b incr (Nat.iter a incr x) = Nat.iter (a + b) incr x.
Proof. rewrite Nat.add_comm. symmetry. apply Nat.iter_add. Qed.

Lemma iter_incr_wrap (k : nat) (x : Z) :
  Nat.iter k incr (wrap32 x) = wrap32 (x + Z.of_nat k).
Proof.
  induction k as [|k IH].
  - simpl. rewrite Z.add_0_r. reflexivity.
  - rewrite Nat.iter_succ, IH. unfold incr, wrap32.
    rewrite Zplus_mod_idemp_l. f_equal. lia.
Qed.

Section Scheduler.

Context {env : Type}.
Variable rnd : env -> Z * env.
Implicit Types (s : @state env) (p : @fd_provider env) (l : list (@fd_provider env)).

Lemma once_extend_l (j : nat) p p' (d d2 : list event) :
  opened_at_most_once j p p' d ->
  opens j d2 = 0%nat ->
  opened_at_most_once j p p' (d2 ++ d).
Proof.
  unfold opened_at_most_once. intros [[A B]|[A [B [C D]]]] Z2.
  - left. rewrite opens_app. split; [lia | exact B].
  - right. rewrite opens_app. split; [lia|]. split; [exact B|]. split; [exact C|].
    destruct D as [[D1 D2]|[D1 D2]]; [left | right];
      (split; [apply in_or_app; right; exact D1 | exact D2]).
Qed.

Lemma once_extend_r (j : nat) p p' (d d1 : list event) :
  opened_at_most_once j p p' d ->
  opens j d1 = 0%nat ->
  opened_at_most_once j p p' (d ++ d1).
Proof.
  unfold opened_at_most_once. intros [[A B]|[A [B [C D]]]] Z1.
  - left. rewrite opens_app. split; [lia | exact B].
  - right. rewrite opens_app. split; [lia|]. split; [exact B|]. split; [exact C|].
    destruct D as [[D1 D2]|[D1 D2]]; [left | right];
      (split; [apply in_or_app; left; exact D1 | exact D2]).
Qed.

(** A provider that a pass opened is skipped by the passes that follow. *)
Lemma once_compose (j : nat) p0 p1 p2 (d1 d2 : list event) :
  opened_at_most_once j p0 p1 d1 ->
  opened_at_most_once j p1 p2 d2 ->
  opened_at_most_once j p0 p2 (d2 ++ d1).
Proof.
  intros H1 H2.
  destruct H1 as [[A1 B1]|[A1 [B1 [C1 D1]]]].
  - subst p1. apply once_extend_r; assumption.
  - destruct H2 as [[A2 B2]|[A2 [B2 [C2 D2]]]].
    + subst p2. apply once_extend_l; [|exact A2].
      right. repeat split; assumption.
    + exfalso. destruct D1 as [[_ E]|[_ E]]; subst p1;
        cbn [enabled initialized set_enabled set_initialized] in *; congruence.
Qed.

(** One node of a pass. *)
Lemma open_node_effect (do_rand : bool) (idx : nat) p s p' s' :
  open_node rnd do_rand idx p s = (p', s') ->
  exists d : list event,
    trace s' = d ++ trace s
    /\ ((if initialized p' then 1 else 0)
        = (if initialized p then 1 else 0) + successful_opens d)%nat
    /\ num_fd_providers_enabled s'
       = Nat.iter (successful_opens d) incr (num_fd_providers_enabled s)
    /\ num_fd_providers_initialized s'
       = Nat.iter (successful_opens d) incr (num_fd_providers_initialized s)
    /\ num_fd_providers s' = num_fd_providers s
    /\ num_fd_providers_to_enable s' = num_fd_providers_to_enable s
    /\ (forall j : nat, j <> idx -> opens j d = 0%nat)
    /\ opened_at_most_once idx p p' d.
Proof.
  unfold open_node, opened_at_most_once. intros H.
  destruct (enabled p) eqn:En; cbn [negb] in H.
  2:{ inversion H; subst p' s'. exists [].
      cbn [successful_opens]. rewrite Nat.add_0_r.
      repeat split; try reflexivity. left. split; reflexivity. }
  destruct (initialized p) eqn:Ini.
  { inversion H; subst p' s'. exists []. rewrite Ini.
    repeat split; try reflexivity. left. split; reflexivity. }
  assert (Hopen : forall s1 (d1 : list event),
    trace s1 = d1 ++ trace s ->
    successful_opens d1 = 0%nat ->
    (forall j, opens j d1 = 0%nat) ->
    num_fd_providers_enabled s1 = num_fd_providers_enabled s ->
    num_fd_providers_initialized s1 = num_fd_providers_initialized s ->
    num_fd_providers s1 = num_fd_providers s ->
    num_fd_providers_to_enable s1 = num_fd_providers_to_enable s ->
    (let '(ok, e) := open p (ext s1) in
     let s2 := log (EvOpen idx ok) (set_ext e s1) in
     if ok then
       (set_initialized true (set_enabled true p),
        set_counts (incr (num_fd_providers_enabled s2))
                   (incr (num_fd_providers_initialized s2)) s2)
     else (set_enabled false p, s2)) = (p', s') ->
    exists d : list event,
      trace s' = d ++ trace s
      /\ ((if initialized p' then 1 else 0) = 0 + successful_opens d)%nat
      /\ num_fd_providers_enabled s'
         = Nat.iter (successful_opens d) incr (num_fd_providers_enabled s)
      /\ num_fd_providers_initialized s'
         = Nat.iter (successful_opens d) incr (num_fd_providers_initialized s)
      /\ num_fd_providers s' = num_fd_providers s
      /\ num_fd_providers_to_enable s' = num_fd_providers_to_enable s
      /\ (forall j : nat, j <> idx -> opens j d = 0%nat)
      /\ ((opens idx d = 0%nat /\ p' = p)
          \/ (opens idx d = 1%nat /\ true = true /\ false = false
              /\ ((In (EvOpen idx true) d
                   /\ p' = set_initialized true (set_enabled true p))
                  \/ (In (EvOpen idx false) d /\ p' = set_enabled false p))))).
  { intros s1 d1 T S0 O0 E1 E2 E3 E4 H1.
    destruct (open p (ext s1)) as [ok e]. destruct ok; inversion H1; subst p' s'.
    - exists (EvOpen idx true :: d1).
      cbn [trace set_counts log set_ext initialized set_initialized
           num_fd_providers_enabled num_fd_providers_initialized
           num_fd_providers num_fd_providers_to_enable
           successful_opens opens app].
      rewrite T, S0, E1, E2, E3, E4, O0, Nat.eqb_refl.
      repeat split; try reflexivity.
      + intros j Hj. rewrite O0.
        destruct (Nat.eqb idx j) eqn:Q; [apply Nat.eqb_eq in Q; congruence|reflexivity].
      + right. repeat split; try reflexivity. left. split; [left|]; reflexivity.
    - exists (EvOpen idx false :: d1).
      cbn [trace set_counts log set_ext initialized set_enabled
           num_fd_providers_enabled num_fd_providers_initialized
           num_fd_providers num_fd_providers_to_enable
           successful_opens opens app].
      rewrite T, S0, E1, E2, E3, E4, O0, Nat.eqb_refl, Ini.
      repeat split; try reflexivity.
      + intros j Hj. rewrite O0.
        destruct (Nat.eqb idx j) eqn:Q; [apply Nat.eqb_eq in Q; congruence|reflexivity].
      + right. repeat split; try reflexivity. right. split; [left|]; reflexivity. }
  destruct do_rand.
  - unfold RAND_BOOL, rnd32 in H. destruct (rnd (ext s)) as [r e].
    destruct (Z.odd (wrap32 r)).
    + inversion H; subst p' s'. exists [EvRnd (wrap32 r)]. rewrite Ini.
      repeat split; try reflexivity. left. split; reflexivity.
    + apply (Hopen _ [EvRnd (wrap32 r)]) in H; auto.
  - apply (Hopen _ []) in H; auto.
Qed.

(** The walk over the nodes from position [idx] on. *)
Lemma open_nodes_effect (do_rand : bool) :
  forall l (idx : nat) s l' s',
    open_nodes rnd do_rand idx l s = (l', s') ->
    exists d : list event,
      trace s' = d ++ trace s
      /\ count_initialized l' = (count_initialized l + successful_opens d)%nat
      /\ num_fd_providers_enabled s'
         = Nat.iter (successful_opens d) incr (num_fd_providers_enabled s)
      /\ num_fd_providers_initialized s'
         = Nat.iter (successful_opens d) incr (num_fd_providers_initialized s)
      /\ num_fd_providers s' = num_fd_providers s
      /\ num_fd_providers_to_enable s' = num_fd_providers_to_enable s
      /\ List.length l' = List.length l
      /\ (forall j : nat, (j < idx)%nat -> opens j d = 0%nat)
      /\ (forall j : nat, (idx + List.length l <= j)%nat -> opens j d = 0%nat)
      /\ (forall (m : nat) p,
            nth_error l m = Some p ->
            exists p', nth_error l' m = Some p'
                       /\ opened_at_most_once (idx + m) p p' d).
Proof.
  induction l as [|q l IH]; intros idx s l' s' H; cbn [open_nodes] in H.
  - inversion H; subst. exists []. repeat split; try reflexivity.
    intros m p E. destruct m; discriminate.
  - destruct (open_node rnd do_rand idx q s) as [q' s1] eqn:N.
    destruct (open_nodes rnd do_rand (S idx) l s1) as [l1 s2] eqn:R.
    inversion H; subst l' s'. clear H.
    destruct (open_node_effect _ _ _ _ _ _ N)
      as [d1 [T1 [C1 [E1 [I1 [P1 [Q1 [O1 A1]]]]]]]].
    destruct (IH _ _ _ _ R)
      as [d2 [T2 [C2 [E2 [I2 [P2 [Q2 [L2 [B2 [F2 A2]]]]]]]]]].
    exists (d2 ++ d1).
    split; [rewrite T2, T1, app_assoc; reflexivity|].
    split; [cbn [count_initialized]; rewrite successful_opens_app, C2; lia|].
    split; [rewrite E2, E1, iter_incr_add; f_equal;
            rewrite successful_opens_app; lia|].
    split; [rewrite I2, I1, iter_incr_add; f_equal;
            rewrite successful_opens_app; lia|].
    split; [congruence|]. split; [congruence|].
    split; [cbn [List.length]; congruence|].
    split; [intros j Hj; rewrite opens_app, B2, O1 by lia; reflexivity|].
    split.
    { intros j Hj. cbn [List.length] in Hj.
      rewrite opens_app, F2, O1 by lia. reflexivity. }
    intros m p E. destruct m as [|m]; cbn [nth_error] in *.
    + inversion E; subst q. exists q'. split; [reflexivity|].
      rewrite Nat.add_0_r. apply once_extend_l; [exact A1|]. apply B2. lia.
    + destruct (A2 m p E) as [p' [E' A']]. exists p'. split; [exact E'|].
      replace (idx + S m)%nat with (S idx + m)%nat by lia.
      apply once_extend_r; [exact A'|]. apply O1. lia.
Qed.

Lemma scheduled_refl s : scheduled s s [].
Proof.
  unfold scheduled. cbn [app successful_opens Nat.iter opens].
  rewrite Nat.add_0_r. repeat split; try reflexivity.
  intros j p E. exists p. split; [exact E|]. left. split; reflexivity.
Qed.

Lemma scheduled_trans s s1 s2 (d1 d2 : list event) :
  scheduled s s1 d1 -> scheduled s1 s2 d2 -> scheduled s s2 (d2 ++ d1).
Proof.
  intros [T1 [C1 [E1 [I1 [P1 [Q1 [L1 [F1 A1]]]]]]]]
         [T2 [C2 [E2 [I2 [P2 [Q2 [L2 [F2 A2]]]]]]]].
  unfold scheduled.
  split; [rewrite T2, T1, app_assoc; reflexivity|].
  split; [rewrite successful_opens_app, C2, C1; lia|].
  split; [rewrite E2, E1, iter_incr_add; f_equal;
          rewrite successful_opens_app; lia|].
  split; [rewrite I2, I1, iter_incr_add; f_equal;
          rewrite successful_opens_app; lia|].
  split; [congruence|]. split; [congruence|]. split; [congruence|].
  split.
  - intros j Hj. rewrite opens_app, F2, F1 by lia. reflexivity.
  - intros j p E. destruct (A1 j p E) as [p1 [E1' O1]].
    destruct (A2 j p1 E1') as [p2 [E2' O2]].
    exists p2. split; [exact E2'|]. exact (once_compose _ _ _ _ _ _ O1 O2).
Qed.

(** One pass. *)
Lemma scheduled_pass (do_rand : bool) s :
  exists d : list event, scheduled s (__open_fds rnd do_rand s) d.
Proof.
  unfold __open_fds.
  destruct (open_nodes rnd do_rand 0 (fd_providers s) s) as [l' s1] eqn:R.
  destruct (open_nodes_effect _ _ _ _ _ _ R)
    as [d [T [C [E [I [P [Q [L [B [F A]]]]]]]]]].
  exists d. unfold scheduled.
  cbn [set_providers trace fd_providers num_fd_providers
       num_fd_providers_to_enable num_fd_providers_enabled
       num_fd_providers_initialized].
  repeat split; auto.
Qed.

(** Any number of random passes, whether the loop ends or not. *)
Lemma scheduled_passes (n : nat) s :
  exists d : list event, scheduled s (Nat.iter n (__open_fds rnd true) s) d.
Proof.
  induction n as [|n [d1 S1]].
  - exists []. apply scheduled_refl.
  - rewrite Nat.iter_succ.
    destruct (scheduled_pass true (Nat.iter n (__open_fds rnd true) s))
      as [d2 S2].
    exists (d2 ++ d1). exact (scheduled_trans _ _ _ _ _ S1 S2).
Qed.

(** The loop of random passes. *)
Lemma scheduled_random :
  forall (fuel : nat) s s',
    open_fds_random rnd fuel s = Done tt s' ->
    exists d : list event, scheduled s s' d.
Proof.
  induction fuel as [|fuel IH]; intros s s' H; cbn [open_fds_random] in H;
    destruct (num_fd_providers_initialized s <? num_fd_providers_to_enable s / 2);
    try discriminate.
  - inversion H; subst. exists []. apply scheduled_refl.
  - destruct (scheduled_pass true s) as [d1 S1].
    destruct (IH _ _ H) as [d2 S2].
    exists (d2 ++ d1). exact (scheduled_trans _ _ _ _ _ S1 S2).
  - inversion H; subst. exists []. apply scheduled_refl.
Qed.

Lemma scheduled_output (m : message) s : scheduled s (output m s) [EvOutput m].
Proof.
  unfold scheduled, output.
  cbn [log trace fd_providers num_fd_providers num_fd_providers_to_enable
       num_fd_providers_enabled num_fd_providers_initialized
       app successful_opens Nat.iter opens].
  rewrite Nat.add_0_r. repeat split; try reflexivity.
  intros j p E. exists p. split; [exact E|]. left. split; reflexivity.
Qed.

(** The whole scheduler. *)
Lemma scheduled_open_fds (fuel : nat) s (r : bool) s' :
  open_fds rnd fuel s = Done r s' ->
  exists d : list event, scheduled s s' d.
Proof.
  unfold open_fds. intros H.
  destruct (open_fds_random rnd fuel s) as [[] s1| | |] eqn:R;
    cbn [bind] in H; try discriminate.
  inversion H; subst r s'. clear H.
  destruct (scheduled_random _ _ _ R) as [d1 S1].
  destruct (scheduled_pass false s1) as [d2 S2].
  eexists.
  eapply scheduled_trans; [|apply scheduled_output].
  eapply scheduled_trans; [exact S1 | exact S2].
Qed.

(** C8: over a whole run of the scheduler, the random passes and the
    last pass, and for every position of the list, [open()] of the
    provider at that position is called at most once; when it is called
    the provider was enabled and not initialized, and it ends initialized
    and enabled after a success, disabled and not initialized after a
    failure; a provider that is not opened is left as it was. *)
Theorem open_called_at_most_once (fuel : nat) s (r : bool) s' :
  open_fds rnd fuel s = Done r s' ->
  exists d : list event,
    trace s' = d ++ trace s
    /\ forall idx : nat,
         (opens idx d <= 1)%nat
         /\ forall p, nth_error (fd_providers s) idx = Some p ->
              exists p', nth_error (fd_providers s') idx = Some p'
                         /\ opened_at_most_once idx p p' d.
Proof.
  intros H. destruct (scheduled_open_fds _ _ _ _ H)
    as [d [T [_ [_ [_ [_ [_ [_ [F A]]]]]]]]].
  exists d. split; [exact T|]. intros idx. split.
  - destruct (nth_error (fd_providers s) idx) as [p|] eqn:E.
    + destruct (A idx p E) as [p' [_ [[O _]|[O _]]]]; lia.
    + apply nth_error_None in E. rewrite F by exact E. lia.
  - intros p E. exact (A idx p E).
Qed.

End Scheduler.

(** ** The counters over the life of a process *)

Section Counters.

Context {env : Type}.
Variable rnd : env -> Z * env.
Implicit Types (s : @state env) (p : @fd_provider env) (l : list (@fd_provider env)).

(** *** What the option processor keeps *)

Lemma mark_node_initialized (v : bool) (str : string) :
  forall l l', mark_node v str l = Some l' ->
               map initialized l' = map initialized l.
Proof.
  induction l as [|p l IH]; intros l' H; cbn [mark_node] in H; [discriminate|].
  destruct (String.eqb (name p) str).
  - inversion H; subst. reflexivity.
  - destruct (mark_node v str l) as [l1|]; [|discriminate].
    inversion H; subst. cbn [map]. f_equal. apply IH. reflexivity.
Qed.

Lemma fds_param_keeps (enable : bool) (str : string) s s' :
  fds_param enable str s = Done tt s' ->
  opened_counters s' = opened_counters s
  /\ registry_shape s' = registry_shape s.
Proof.
  unfold fds_param, enable_fds_param, disable_fds_param. intros H.
  destruct enable;
    [destruct (mark_node true str (fd_providers s)) as [l|] eqn:M
    |destruct (mark_node false str (fd_providers s)) as [l|] eqn:M];
    try discriminate; inversion H; subst s';
    apply mark_node_initialized in M;
    unfold opened_counters, registry_shape;
    cbn [set_to_enable output log set_providers trace fd_providers
         num_fd_providers num_fd_providers_enabled
         num_fd_providers_initialized successful_opens];
    rewrite M; split; reflexivity.
Qed.

(** What every processed string keeps, the scan over the buffer keeps. *)
Lemma scan_commas_keeps {X : Type} (f : @state env -> X) :
  (forall (en : bool) (str : string) s s',
     fds_param en str s = Done tt s' -> f s' = f s) ->
  forall (n : nat) (en : bool) (i str : nat) (buf : list ascii) s r s',
    scan_commas n en i str buf s = Done r s' -> f s' = f s.
Proof.
  intros Hf. induction n as [|n IH]; intros en i str buf s r s' H;
    cbn [scan_commas] in H.
  - inversion H; subst. reflexivity.
  - destruct (nth_error buf (str + i)) as [c|]; [|discriminate].
    destruct (Ascii.eqb c COMMA).
    + destruct (fds_param en (c_str_at (poke (str + i) NUL buf) str) s)
        as [[] s1| | |] eqn:P; cbn [bind] in H; try discriminate.
      rewrite (IH _ _ _ _ _ _ _ H). exact (Hf _ _ _ _ P).
    + exact (IH _ _ _ _ _ _ _ H).
Qed.

Lemma process_fds_param_keeps {X : Type} (f : @state env -> X) :
  (forall (en : bool) (str : string) s s',
     fds_param en str s = Done tt s' -> f s' = f s) ->
  (forall s, f (disable_all s) = f s) ->
  forall (param : string) (enable : bool) s s',
    process_fds_param param enable s = Done tt s' -> f s' = f s.
Proof.
  intros Hf Hd param enable s s' H. unfold process_fds_param in H.
  destruct (scan_commas (strlen param) enable 0 0 (strdup param)
              (if enable then disable_all s else s)) as [[str buf] s1| | |] eqn:S;
    cbn [bind last_param] in H; try discriminate.
  apply (scan_commas_keeps f Hf) in S.
  assert (E : f s1 = f s) by (rewrite S; destruct enable; [apply Hd | reflexivity]).
  destruct (str <? strlen param)%nat.
  - rewrite (Hf _ _ _ _ H). exact E.
  - inversion H; subst. exact E.
Qed.

Lemma process_fds_param_counters (param : string) (enable : bool) s s' :
  process_fds_param param enable s = Done tt s' ->
  opened_counters s' = opened_counters s.
Proof.
  apply (process_fds_param_keeps opened_counters).
  - intros en str s0 s1 H. apply (fds_param_keeps _ _ _ _ H).
  - reflexivity.
Qed.

Lemma process_fds_param_shape (param : string) (enable : bool) s s' :
  process_fds_param param enable s = Done tt s' ->
  registry_shape s' = registry_shape s.
Proof.
  apply (process_fds_param_keeps registry_shape).
  - intros en str s0 s1 H. apply (fds_param_keeps _ _ _ _ H).
  - intros s0. unfold registry_shape, disable_all.
    cbn [set_providers fd_providers num_fd_providers num_fd_providers_enabled
         num_fd_providers_initialized].
    rewrite map_map. reflexivity.
Qed.

(** *** Registration *)

Lemma add_to_prov_list_fold :
  forall (table : list fd_provider) s,
    let s1 := fold_left (fun acc prov => add_to_prov_list prov acc) table s in
    map initialized (fd_providers s1)
    = map initialized (fd_providers s) ++ repeat false (List.length table)
    /\ num_fd_providers s1
       = Nat.iter (List.length table) incr (num_fd_providers s)
    /\ num_fd_providers_enabled s1 = num_fd_providers_enabled s
    /\ num_fd_providers_initialized s1 = num_fd_providers_initialized s
    /\ trace s1 = trace s.
Proof.
  induction table as [|prov table IH]; intros s; cbn [fold_left].
  - cbn [List.length repeat Nat.iter]. rewrite app_nil_r.
    repeat split; reflexivity.
  - destruct (IH (add_to_prov_list prov s)) as [A [B [C [D E]]]].
    cbn zeta in *. rewrite A, B, C, D, E.
    unfold add_to_prov_list.
    cbn [set_providers set_num_fd_providers fd_providers num_fd_providers
         num_fd_providers_enabled num_fd_providers_initialized trace
         List.length repeat].
    rewrite map_app, <- app_assoc. cbn [map initialized app].
    rewrite <- Nat.iter_succ_r. repeat split; reflexivity.
Qed.

Lemma configured_shape s :
  configured s ->
  exists n : nat,
    registry_shape s = (0, 0, Z.of_nat n, repeat false n)
    /\ Z.of_nat n < 2 ^ 32.
Proof.
  induction 1 as [table e children cur life Hn | s s' param enable _ IH H].
  - exists (List.length table). split; [|exact Hn].
    unfold setup_fd_providers, registry_shape, output.
    cbn [log fd_providers num_fd_providers num_fd_providers_enabled
         num_fd_providers_initialized].
    destruct (add_to_prov_list_fold table (set_providers [] (boot e children cur life)))
      as [A [B [C [D _]]]].
    cbn zeta in *. rewrite A, B, C, D.
    cbn [set_providers boot fd_providers num_fd_providers
         num_fd_providers_enabled num_fd_providers_initialized map app].
    change 0 with (wrap32 0) at 3.
    rewrite iter_incr_wrap, wrap32_small by lia. reflexivity.
  - destruct IH as [n [E Hn]]. exists n. split; [|exact Hn].
    rewrite (process_fds_param_shape _ _ _ _ H). exact E.
Qed.

Lemma count_initialized_le l :
  (count_initialized l <= List.length l)%nat.
Proof.
  induction l as [|p l IH]; cbn [count_initialized List.length]; [lia|].
  destruct (initialized p); lia.
Qed.

Lemma none_initialized (n : nat) :
  forall l, map initialized l = repeat false n ->
            count_initialized l = 0%nat
            /\ List.length l = n
            /\ forall p, In p l -> initialized p = false.
Proof.
  induction n as [|n IH]; intros l H; destruct l as [|q l];
    cbn [map repeat] in H; try discriminate.
  - repeat split; try reflexivity. intros p [].
  - injection H as Hq Hl. destruct (IH l Hl) as [A [B C]].
    cbn [count_initialized List.length]. rewrite Hq, A, B.
    repeat split; try reflexivity.
    intros p [E|E]; [subst p; exact Hq | apply C; exact E].
Qed.

(** C5: in a process that has registered its providers and processed any
    number of option strings, once [open_fds] has returned the counter of
    initialized providers is at most the counter of enabled providers,
    which is at most the count of the list, and every provider that is
    initialized is enabled. *)
Theorem open_fds_counters (fuel : nat) s (r : bool) s' :
  configured s ->
  open_fds rnd fuel s = Done r s' ->
  num_fd_providers_initialized s' <= num_fd_providers_enabled s'
                                   <= num_fd_providers s'
  /\ Forall (fun p => initialized p = true -> enabled p = true) (fd_providers s').
Proof.
  intros Hc H.
  destruct (configured_shape s Hc) as [n [Sh Hn]].
  unfold registry_shape in Sh. injection Sh as E0 I0 P0 M0.
  destruct (none_initialized n _ M0) as [C0 [L0 U0]].
  destruct (scheduled_open_fds rnd _ _ _ _ H)
    as [d [T [C [E [I [P [Q [L [F A]]]]]]]]].
  rewrite C0 in C. cbn [Nat.add] in C.
  pose proof (count_initialized_le (fd_providers s')) as Hle.
  rewrite E, I, P, E0, I0, P0. change 0 with (wrap32 0).
  rewrite iter_incr_wrap, wrap32_small by lia. split; [lia|].
  apply Forall_forall. intros p' Hin Hi.
  apply In_nth_error in Hin. destruct Hin as [j Hj].
  destruct (nth_error (fd_providers s) j) as [p|] eqn:Ej.
  - destruct (A j p Ej) as [p'' [Ej' O]].
    rewrite Hj in Ej'. inversion Ej'; subst p''. clear Ej'.
    apply nth_error_In in Ej. apply U0 in Ej.
    destruct O as [[_ Eq]|[_ [_ [_ [[_ Eq]|[_ Eq]]]]]]; subst p';
      cbn [initialized enabled set_enabled set_initialized] in *;
      congruence.
  - apply nth_error_None in Ej.
    assert (Hlt : (j < List.length (fd_providers s'))%nat)
      by (apply nth_error_Some; congruence).
    lia.
Qed.

(** *** The selectors keep the counters *)

Lemma sample_fd_counters :
  forall (fuel : nat) s (fd : Z) s',
    sample_fd rnd fuel s = Done fd s' ->
    opened_counters s' = opened_counters s.
Proof.
  induction fuel as [|fuel IH]; intros s fd s' H; cbn [sample_fd] in H;
    [discriminate|].
  unfold rnd32 in H. destruct (rnd (ext s)) as [r e].
  cbn [num_fd_providers fd_providers log set_ext ext] in H.
  destruct (num_fd_providers s =? 0); [discriminate|].
  destruct (find_node _ 0 0 (fd_providers s)) as [[idx p]|];
    [|exact (IH _ _ _ H)].
  destruct (negb (enabled p)); [exact (IH _ _ _ H)|].
  destruct (negb (initialized p)); [exact (IH _ _ _ H)|].
  destruct (get p e) as [v e'].
  destruct (v <? 0); [exact (IH _ _ _ H)|].
  inversion H; subst. reflexivity.
Qed.

Lemma get_new_random_fd_counters (fuel : nat) s (fd : Z) s' :
  get_new_random_fd rnd fuel s = Done fd s' ->
  opened_counters s' = opened_counters s.
Proof.
  unfold get_new_random_fd. intros H.
  destruct (num_fd_providers_enabled s =? 0); [inversion H; reflexivity|].
  destruct (num_fd_providers_initialized s =? 0); [inversion H; reflexivity|].
  exact (sample_fd_counters _ _ _ _ H).
Qed.

Lemma lease_step_counters (fuel : nat) s s' :
  lease_step rnd fuel s = Done tt s' ->
  opened_counters s' = opened_counters s.
Proof.
  unfold lease_step, resample. intros H.
  destruct (shm_fd_lifetime s =? 0); [|inversion H; reflexivity].
  destruct (get_new_random_fd rnd fuel s) as [fd s1| | |] eqn:G;
    cbn [bind] in H; try discriminate.
  apply get_new_random_fd_counters in G. rewrite <- G.
  unfold RAND_RANGE, rnd32 in H.
  cbn [ext set_current_fd max_children] in H.
  destruct (max_children s1 >? 5); destruct (rnd (ext s1)) as [r e];
    inversion H; reflexivity.
Qed.

Lemma regen_counters :
  forall (fuel inner : nat) s (fd : Z) s',
    regen rnd fuel inner s = Done fd s' ->
    opened_counters s' = opened_counters s.
Proof.
  induction fuel as [|fuel IH]; intros inner s fd s' H; cbn [regen] in H;
    destruct (lease_step rnd inner s) as [[] s1| | |] eqn:L; try discriminate;
    apply lease_step_counters in L;
    destruct (shm_current_fd s1 =? 0); try discriminate.
  - inversion H; subst. exact L.
  - rewrite (IH _ _ _ _ H). exact L.
  - inversion H; subst. exact L.
Qed.

(** At every point the two counters are the number of successful
    [open()] calls, as an [unsigned int]. *)
Lemma reachable_counters s :
  reachable rnd s ->
  num_fd_providers_enabled s
  = wrap32 (Z.of_nat (successful_opens (trace s)))
  /\ num_fd_providers_initialized s
     = wrap32 (Z.of_nat (successful_opens (trace s))).
Proof.
  assert (Keep : forall s s' : @state env,
            opened_counters s' = opened_counters s ->
            num_fd_providers_enabled s
            = wrap32 (Z.of_nat (successful_opens (trace s)))
            /\ num_fd_providers_initialized s
               = wrap32 (Z.of_nat (successful_opens (trace s))) ->
            num_fd_providers_enabled s'
            = wrap32 (Z.of_nat (successful_opens (trace s')))
            /\ num_fd_providers_initialized s'
               = wrap32 (Z.of_nat (successful_opens (trace s')))).
  { intros s0 s1 E K. unfold opened_counters in E.
    inversion E as [[E1 E2 E3]]. rewrite E1, E2, E3. exact K. }
  induction 1 as [table e children cur life
                 | s s' param enable _ IH H
                 | s s' fuel r _ IH H
                 | s s' fuel fd _ IH H
                 | s s' fuel fd _ IH H
                 | s cur life _ IH].
  - unfold setup_fd_providers, output.
    cbn [log num_fd_providers_enabled num_fd_providers_initialized trace
         successful_opens].
    destruct (add_to_prov_list_fold table (set_providers [] (boot e children cur life)))
      as [_ [_ [C [D E]]]].
    cbn zeta in *. rewrite C, D, E. split; reflexivity.
  - exact (Keep _ _ (process_fds_param_counters _ _ _ _ H) IH).
  - destruct (scheduled_open_fds rnd _ _ _ _ H)
      as [d [T [_ [E [I _]]]]].
    destruct IH as [K1 K2].
    rewrite E, I, T, K1, K2, !iter_incr_wrap, successful_opens_app.
    split; f_equal; lia.
  - exact (Keep _ _ (get_new_random_fd_counters _ _ _ _ H) IH).
  - exact (Keep _ _ (regen_counters _ _ _ _ _ H) IH).
  - exact IH.
Qed.

(** C9: at every point of the life of a process the counter of enabled
    providers equals the counter of initialized providers, and both are
    the number of [open()] calls that have succeeded (as an
    [unsigned int]); registration and the option processor, in either
    mode, leave the counter of enabled providers as it was. *)
Theorem enabled_counter_follows_initialized s :
  reachable rnd s ->
  num_fd_providers_enabled s = num_fd_providers_initialized s
  /\ num_fd_providers_enabled s
     = wrap32 (Z.of_nat (successful_opens (trace s)))
  /\ (forall prov : fd_provider,
        num_fd_providers_enabled (add_to_prov_list prov s)
        = num_fd_providers_enabled s)
  /\ (forall (param : string) (enable : bool) s',
        process_fds_param param enable s = Done tt s' ->
        num_fd_providers_enabled s' = num_fd_providers_enabled s).
Proof.
  intros H. destruct (reachable_counters s H) as [K1 K2].
  split; [congruence|]. split; [exact K1|]. split; [reflexivity|].
  intros param enable s' P.
  apply process_fds_param_counters in P. unfold opened_counters in P.
  inversion P. reflexivity.
Qed.

End Counters.

(** ** Concrete runs *)

(** *** The option processor *)

(** A concrete string is not among the concrete members of a list. *)
Ltac not_a_member :=
  let H := fresh "H" in
  cbn; intros H; repeat (destruct H as [H|H]; [discriminate H|]); exact H.

(** One name: with {A, B, C} enabled by default, "B" in the enable mode
    leaves A and C disabled and B enabled, and the counter of requested
    providers at 1. *)
Example process_fds_param_enable_B :
  exists s' : @state nat,
    process_fds_param "B" true abc_state = Done tt s'
    /\ map (fun p => (name p, enabled p)) (fd_providers s')
       = [("A"%string, false); ("B"%string, true); ("C"%string, false)]
    /\ num_fd_providers_to_enable s' = 1.
Proof. eexists. split; [reflexivity|]. split; reflexivity. Qed.

(** C3 fails on the code at {A, B, C} and "A,B,C" in the enable mode.
    The first name is processed at the comma that follows it; from then
    on the loop tests [str[i]] with [str] behind that comma, so it passes
    over the second comma and, in its last turn, reads the byte at offset
    6 of a buffer of 6 bytes: the call does not return, B and C are never
    enabled.  The tokens applied in order, as the specification has it, return
    with the three providers enabled and the counter at 3. *)
Theorem process_fds_param_enable_A_B_C :
  process_fds_param "A,B,C" true abc_state = Fault
  /\ exists s' : @state nat,
       apply_tokens true (tokens "A,B,C") (disable_all abc_state) = Done tt s'
       /\ map (fun p => (name p, enabled p)) (fd_providers s')
          = [("A"%string, true); ("B"%string, true); ("C"%string, true)]
       /\ num_fd_providers_to_enable s' = 3.
Proof.
  split; [reflexivity|].
  eexists. split; [reflexivity|]. split; reflexivity.
Qed.

(** What is left of "A,B,C" when the loop is over, with [str] behind the
    first comma and the second comma still in place: the string "B,C",
    which names no provider. *)
Example process_fds_param_A_B_C_rest :
  c_str_at (poke 1 NUL (strdup "A,B,C")) 2 = "B,C"%string
  /\ last_param true (strlen "A,B,C") (2%nat, poke 1 NUL (strdup "A,B,C"))
       abc_A_enabled
     = Exit EXIT_FAILURE
         (output MsgUsage (output (MsgUnknownEnable "B,C") abc_A_enabled)).
Proof. split; reflexivity. Qed.

Lemma is_c_string_nope_A : is_c_string "nope,A".
Proof. unfold is_c_string. not_a_member. Defined.

Lemma nope_not_registered : ~ registered abc_state "nope".
Proof. unfold registered. not_a_member. Defined.

(** X19 at {A, B, C} and "nope,A" in the enable mode. *)
Lemma process_fds_param_first_unknown_witness :
  tokens "nope,A" = ["nope"%string; "A"%string]
  /\ process_fds_param "nope,A" true abc_state
     = Exit EXIT_FAILURE
         (output MsgUsage
            (output (unknown_msg true "nope") (disable_all abc_state)))
  /\ EXIT_FAILURE <> 0.
Proof.
  split; [reflexivity|].
  apply (process_fds_param_first_unknown "nope,A" true abc_state
           "nope" ["A"%string]).
  - exact is_c_string_nope_A.
  - reflexivity.
  - exact nope_not_registered.
Defined.

(** The unknown name alone, at {A, B, C}, all enabled: both modes exit
    with EXIT_FAILURE after the complaint and the usage text; no token
    comes before the unknown one, and the registry at the exit is the one
    that the call, its first pass included, had when it looked the name
    up, A, B and C disabled in the enable mode and enabled in the disable
    mode. *)
Example process_fds_param_doesNotExist (enable : bool) :
  process_fds_param "doesNotExist" enable abc_state
  = Exit EXIT_FAILURE
      (output MsgUsage
         (output (unknown_msg enable "doesNotExist")
            (after_first_pass enable abc_state)))
  /\ map (fun p => (name p, enabled p))
       (fd_providers (after_first_pass enable abc_state))
     = [("A"%string, negb enable); ("B"%string, negb enable);
        ("C"%string, negb enable)].
Proof. destruct enable; split; reflexivity. Qed.


(** *** The selectors *)

(** C1 at seven calls, in the course of which the provider "pipes" hands
    out the descriptor 0 once. *)
Lemma get_random_fd_never_zero_witness :
  get_random_fd_calls slow_rnd 8 7 fds_opened
  = Done [3; 3; 3; 3; 3; 3; 7] fds_after_calls
  /\ In (EvGet 2 0) (trace fds_after_calls)
  /\ Forall (fun fd => fd <> 0) [3; 3; 3; 3; 3; 3; 7].
Proof.
  assert (H : get_random_fd_calls slow_rnd 8 7 fds_opened
              = Done [3; 3; 3; 3; 3; 3; 7] fds_after_calls)
    by (vm_compute; reflexivity).
  split; [exact H|]. split.
  - vm_compute. tauto.
  - exact (proj1 (get_random_fd_never_zero slow_rnd 8 7 fds_opened
                    [3; 3; 3; 3; 3; 3; 7] fds_after_calls H)).
Defined.

(** C2 before initialization, and after it. *)
Lemma get_new_random_fd_result_witness :
  get_new_random_fd slow_rnd 0 fds_state = Done (-1) fds_state
  /\ get_new_random_fd slow_rnd 8 fds_opened = Done 3 fds_sampled
  /\ 0 <= 3
  /\ fd_providers fds_sampled = fd_providers fds_opened
  /\ exists (idx : nat) (p : fd_provider) (e : nat) (tr : list event),
       nth_error (fd_providers fds_opened) idx = Some p
       /\ enabled p = true /\ initialized p = true
       /\ get p e = (3, ext fds_sampled)
       /\ trace fds_sampled = EvGet idx 3 :: tr.
Proof.
  split.
  - apply (proj1 (get_new_random_fd_result slow_rnd 0 fds_state)).
    left. reflexivity.
  - assert (H : get_new_random_fd slow_rnd 8 fds_opened = Done 3 fds_sampled)
      by (vm_compute; reflexivity).
    split; [exact H|].
    apply (proj2 (get_new_random_fd_result slow_rnd 8 fds_opened)).
    + vm_compute. discriminate.
    + vm_compute. discriminate.
    + exact H.
Defined.

(** C6: the first call stored the descriptor 3 with the lifetime 5; the
    next five calls return 3, the sixth resamples and returns 7. *)
Lemma lease_stickiness_witness :
  get_random_fd slow_rnd 8 fds_opened_no_pipes = Done 3 fds_leased
  /\ shm_fd_lifetime fds_leased = 5
  /\ get_random_fd_calls slow_rnd 8 5 fds_leased
     = Done (repeat 3 5) (set_fd_lifetime 0 fds_leased)
  /\ get_random_fd slow_rnd 8 (set_fd_lifetime 0 fds_leased)
     = Done 7 fds_releases.
Proof.
  assert (H : get_random_fd slow_rnd 8 fds_opened_no_pipes = Done 3 fds_leased)
    by (vm_compute; reflexivity).
  split; [exact H|]. split; [vm_compute; reflexivity|].
  destruct (lease_stickiness slow_rnd 8 8 5 fds_opened_no_pipes fds_leased
              fds_leased 3 H) as [A B].
  - vm_compute. reflexivity.
  - vm_compute. reflexivity.
  - reflexivity.
  - split.
    + exact (A 5%nat (le_n 5)).
    + apply (B fds_releases).
      * vm_compute. reflexivity.
      * vm_compute. discriminate.
Defined.

(** C7 with eight children. *)
Lemma fresh_lifetime_range_witness :
  0 <= max_children fds_opened < 2 ^ 32
  /\ resample slow_rnd 8 fds_opened = Done tt fds_resampled
  /\ lifetime_in_range (max_children fds_opened) (shm_fd_lifetime fds_resampled).
Proof.
  assert (Hmc : 0 <= max_children fds_opened < 2 ^ 32)
    by (vm_compute; split; [discriminate | reflexivity]).
  assert (H : resample slow_rnd 8 fds_opened = Done tt fds_resampled)
    by (vm_compute; reflexivity).
  split; [exact Hmc|]. split; [exact H|].
  exact (proj1 (fresh_lifetime_range slow_rnd 8 fds_opened Hmc)
           fds_resampled H).
Defined.

(** *** The scheduler *)

Lemma fds_no_pipes_configured : configured fds_no_pipes.
Proof.
  apply (configured_param fds_state fds_no_pipes "pipes" false).
  - apply configured_setup. reflexivity.
  - vm_compute. reflexivity.
Defined.

(** C5 with "pipes" disabled on the command line: two providers are
    opened, "sockets" fails. *)
Lemma open_fds_counters_witness :
  open_fds slow_rnd 8 fds_no_pipes = Done true fds_opened_no_pipes
  /\ num_fd_providers_initialized fds_opened_no_pipes
     <= num_fd_providers_enabled fds_opened_no_pipes
     <= num_fd_providers fds_opened_no_pipes
  /\ Forall (fun p => initialized p = true -> enabled p = true)
            (fd_providers fds_opened_no_pipes).
Proof.
  assert (H : open_fds slow_rnd 8 fds_no_pipes = Done true fds_opened_no_pipes)
    by (vm_compute; reflexivity).
  split; [exact H|].
  exact (open_fds_counters slow_rnd 8 fds_no_pipes true fds_opened_no_pipes
           fds_no_pipes_configured H).
Defined.

(** C8 on a run of two random passes: "sockets" fails in the first and
    is not tried again. *)
Lemma open_called_at_most_once_witness :
  open_fds slow_rnd 8 fds_requested = Done true fds_opened_in_passes
  /\ exists d : list event,
       trace fds_opened_in_passes = d ++ trace fds_requested
       /\ forall idx : nat,
            (opens idx d <= 1)%nat
            /\ forall p, nth_error (fd_providers fds_requested) idx = Some p ->
                 exists p', nth_error (fd_providers fds_opened_in_passes) idx
                            = Some p'
                            /\ opened_at_most_once idx p p' d.
Proof.
  assert (H : open_fds slow_rnd 8 fds_requested = Done true fds_opened_in_passes)
    by (vm_compute; reflexivity).
  split; [exact H|].
  exact (open_called_at_most_once slow_rnd 8 fds_requested true
           fds_opened_in_passes H).
Defined.

Lemma fds_leased_reachable : reachable slow_rnd fds_leased.
Proof.
  apply (reachable_get slow_rnd fds_opened_no_pipes fds_leased 8 3);
    [|vm_compute; reflexivity].
  apply (reachable_open_fds slow_rnd fds_no_pipes fds_opened_no_pipes 8 true);
    [|vm_compute; reflexivity].
  apply (reachable_param slow_rnd fds_state fds_no_pipes "pipes" false);
    [|vm_compute; reflexivity].
  apply reachable_setup.
Defined.

(** C9 after registration, an option, the scheduler and a call of the
    leased selector: both counters are 2, the number of providers that
    were opened. *)
Lemma enabled_counter_follows_initialized_witness :
  reachable slow_rnd fds_leased
  /\ num_fd_providers_enabled fds_leased
     = num_fd_providers_initialized fds_leased
  /\ num_fd_providers_enabled fds_leased = 2.
Proof.
  destruct (enabled_counter_follows_initialized slow_rnd fds_leased
              fds_leased_reachable) as [A [B _]].
  split; [exact fds_leased_reachable|]. split; [exact A | exact B].
Defined.

(** The counter of enabled providers is not the number of providers
    whose flag [enabled] is set: after the option three flags are set and
    the counter is 0. *)
Example enabled_counter_is_not_the_flags :
  map enabled (fd_providers fds_no_pipes) = [true; true; false; true]
  /\ num_fd_providers_enabled fds_no_pipes = 0.
Proof. split; reflexivity. Qed.

(** * Further properties *)

(** ** Registration *)

Section Registration.

Context {env : Type}.
Implicit Types (s : @state env) (p : @fd_provider env) (l : list (@fd_provider env)).

Lemma add_to_prov_list_all :
  forall (table : list fd_provider) s,
    fold_left (fun acc prov => add_to_prov_list prov acc) table s
    = set_providers (fd_providers s ++ map registered_copy table)
        (set_num_fd_providers
           (Nat.iter (List.length table) incr (num_fd_providers s)) s).
Proof.
  induction table as [|prov table IH]; intros s; cbn [fold_left].
  - cbn [map List.length]. rewrite app_nil_r. destruct s; reflexivity.
  - rewrite IH. unfold add_to_prov_list, registered_copy.
    cbn [set_providers set_num_fd_providers fd_providers num_fd_providers
         num_fd_providers_to_enable num_fd_providers_enabled
         num_fd_providers_initialized shm_current_fd shm_fd_lifetime
         max_children ext trace map List.length].
    rewrite <- app_assoc. cbn [app]. rewrite Nat.iter_succ_r. reflexivity.
Qed.

(** X1: [setup_fd_providers] starts from an empty list and leaves one node
    per provider of the table, in the order of the table, each with the
    name, the default [enabled] and the two functions of its provider and
    with [initialized] cleared; the count of the list is incremented once
    per provider and is not reset, so from the count 0 and with fewer
    than 2^32 providers it is the length of the list; the other counters
    and the lease are untouched and the count is the one line printed. *)
Theorem setup_fd_providers_registers (table : list fd_provider) s :
  fd_providers (setup_fd_providers table s) = map registered_copy table
  /\ num_fd_providers (setup_fd_providers table s)
     = Nat.iter (List.length table) incr (num_fd_providers s)
  /\ (num_fd_providers s = 0 ->
      Z.of_nat (List.length table) < 2 ^ 32 ->
      num_fd_providers (setup_fd_providers table s)
      = Z.of_nat (List.length (fd_providers (setup_fd_providers table s))))
  /\ registry_view (setup_fd_providers table s)
     = (map registered_copy table,
        Nat.iter (List.length table) incr (num_fd_providers s),
        num_fd_providers_to_enable s, num_fd_providers_enabled s,
        num_fd_providers_initialized s, max_children s)
  /\ shm_current_fd (setup_fd_providers table s) = shm_current_fd s
  /\ shm_fd_lifetime (setup_fd_providers table s) = shm_fd_lifetime s
  /\ trace (setup_fd_providers table s)
     = EvOutput (MsgRegistered
                   (Nat.iter (List.length table) incr (num_fd_providers s)))
       :: trace s.
Proof.
  unfold setup_fd_providers, registry_view. rewrite add_to_prov_list_all.
  cbn [output log set_providers set_num_fd_providers fd_providers
       num_fd_providers num_fd_providers_to_enable num_fd_providers_enabled
       num_fd_providers_initialized shm_current_fd shm_fd_lifetime
       max_children ext trace app].
  repeat split; try reflexivity.
  intros H0 Hn. rewrite H0, length_map. change 0 with (wrap32 0).
  rewrite iter_incr_wrap. apply wrap32_small. lia.
Qed.

End Registration.

(** ** More of the option processor *)

Lemma list_ascii_of_string_app (a b : string) :
  list_ascii_of_string (a ++ b)
  = list_ascii_of_string a ++ list_ascii_of_string b.
Proof.
  induction a as [|c a IH]; [reflexivity|].
  cbn [String.append list_ascii_of_string app]. f_equal. exact IH.
Qed.

Section Options.

Context {env : Type}.
Implicit Types (s : @state env) (p : @fd_provider env) (l : list (@fd_provider env)).

(** The walk stops at the first node of the name. *)
Lemma mark_node_first (v : bool) (str : string) p :
  forall l1 l2,
    ~ In str (map name l1) ->
    name p = str ->
    mark_node v str (l1 ++ p :: l2) = Some (l1 ++ set_enabled v p :: l2).
Proof.
  induction l1 as [|q l1 IH]; intros l2 Hn Hp; cbn [app mark_node].
  - rewrite Hp, String.eqb_refl. reflexivity.
  - destruct (String.eqb (name q) str) eqn:E.
    + apply String.eqb_eq in E. exfalso. apply Hn. left. exact E.
    + rewrite IH; [reflexivity | | exact Hp].
      intros H. apply Hn. right. exact H.
Qed.

(** X2: [enable_fds_param] and [disable_fds_param] change the first node
    that carries the name and return at once: the nodes before it and the
    nodes after it, those of the same name included, are left as they
    were; the enable mode counts the request, the disable mode does not,
    and each prints one line. *)
Theorem fds_param_first_match (enable : bool) (str : string) s l1 p l2 :
  fd_providers s = l1 ++ p :: l2 ->
  name p = str ->
  ~ In str (map name l1) ->
  exists s',
    fds_param enable str s = Done tt s'
    /\ fd_providers s' = l1 ++ set_enabled enable p :: l2
    /\ num_fd_providers_to_enable s'
       = (if enable then incr (num_fd_providers_to_enable s)
          else num_fd_providers_to_enable s)
    /\ trace s'
       = EvOutput (if enable then MsgEnabled str else MsgDisabled str)
         :: trace s.
Proof.
  intros Hl Hp Hn. unfold fds_param, enable_fds_param, disable_fds_param.
  destruct enable; rewrite Hl, mark_node_first by assumption;
    eexists; (split; [reflexivity|]); repeat split; reflexivity.
Qed.

(** X3: with unique names, one registered name in the disable mode: the
    provider of that name ends disabled, every other provider keeps its
    flag, no counter moves and one line is printed. *)
Theorem process_fds_param_disable_one_name (param : string) s :
  is_c_string param ->
  ~ In COMMA (list_ascii_of_string param) ->
  param <> EmptyString ->
  NoDup (map name (fd_providers s)) ->
  registered s param ->
  process_fds_param param false s
  = Done tt
      (mk_state
         (map (fun p => if String.eqb (name p) param
                        then set_enabled false p else p)
              (fd_providers s))
         (num_fd_providers s) (num_fd_providers_to_enable s)
         (num_fd_providers_enabled s) (num_fd_providers_initialized s)
         (shm_current_fd s) (shm_fd_lifetime s) (max_children s) (ext s)
         (EvOutput (MsgDisabled param) :: trace s)).
Proof.
  intros Hn Hc He Hd Hr.
  rewrite process_fds_param_no_comma, tokens_no_comma by assumption.
  destruct param as [|c param]; [congruence|].
  cbn [apply_tokens fds_param]. unfold disable_fds_param.
  rewrite mark_node_some by assumption. reflexivity.
Qed.

(** X5: one comma at the end of a name changes nothing: the name followed
    by a comma is processed as the name alone, in either mode. *)
Theorem process_fds_param_comma_at_end (param : string) (enable : bool) s :
  is_c_string param ->
  ~ In COMMA (list_ascii_of_string param) ->
  param <> EmptyString ->
  process_fds_param (param ++ ",") enable s
  = process_fds_param param enable s.
Proof.
  intros Hn Hc He.
  assert (E : list_ascii_of_string (param ++ ",")
              = list_ascii_of_string param ++ [COMMA])
    by (rewrite list_ascii_of_string_app; reflexivity).
  assert (Hn' : is_c_string (param ++ ",")).
  { unfold is_c_string. rewrite E. intros H. apply in_app_or in H.
    destruct H as [H|[H|[]]]; [exact (Hn H) | discriminate H]. }
  rewrite (process_fds_param_trailing_comma _ _ enable s Hn' E Hc).
  rewrite (process_fds_param_no_comma _ enable s Hn Hc).
  rewrite (tokens_first_comma _ _ [] E Hc), (tokens_no_comma _ Hc).
  destruct param as [|c param]; [congruence|].
  cbn [split_commas drop_empty_last map].
  change (list_ascii_of_string (String c param))
    with (c :: list_ascii_of_string param) at 1.
  change (string_of_list_ascii (c :: list_ascii_of_string param))
    with (string_of_list_ascii (list_ascii_of_string (String c param))).
  rewrite string_of_list_ascii_of_string. reflexivity.
Qed.

(** X18: a name enabled and then disabled does not give the registry
    back: with unique names, after the two calls every provider is
    disabled, whatever its flag was before, and the request stays
    counted. *)
Theorem process_fds_param_enable_then_disable (param : string) s :
  is_c_string param ->
  ~ In COMMA (list_ascii_of_string param) ->
  param <> EmptyString ->
  NoDup (map name (fd_providers s)) ->
  registered s param ->
  exists s1 s2,
    process_fds_param param true s = Done tt s1
    /\ process_fds_param param false s1 = Done tt s2
    /\ fd_providers s2 = map (set_enabled false) (fd_providers s)
    /\ num_fd_providers_to_enable s2 = incr (num_fd_providers_to_enable s).
Proof.
  intros Hn Hc He Hd Hr.
  rewrite process_fds_param_no_comma, tokens_no_comma by assumption.
  destruct param as [|c param]; [congruence|].
  cbn [apply_tokens fds_param]. unfold enable_fds_param.
  cbn [disable_all fd_providers set_providers].
  rewrite mark_node_some by (rewrite map_map; assumption).
  cbn [bind]. eexists. eexists. split; [reflexivity|].
  rewrite process_fds_param_no_comma, tokens_no_comma by assumption.
  cbn [apply_tokens fds_param]. unfold disable_fds_param.
  cbn [set_to_enable output log set_providers fd_providers].
  rewrite mark_node_some.
  - cbn [bind]. split; [reflexivity|].
    cbn [output log set_providers fd_providers num_fd_providers_to_enable].
    split; [|reflexivity].
    rewrite !map_map. apply map_ext. intros p. cbn [name set_enabled].
    destruct (String.eqb (name p) (String c param)) eqn:E;
      cbn [name set_enabled]; rewrite E; reflexivity.
  - rewrite !map_map.
    erewrite map_ext; [exact Hd|]. intros p. cbn [name set_enabled].
    destruct (String.eqb (name p) (String c param)); reflexivity.
  - rewrite !map_map.
    erewrite map_ext; [exact Hr|]. intros p. cbn [name set_enabled].
    destruct (String.eqb (name p) (String c param)); reflexivity.
Qed.

End Options.

(** ** More of the scheduler *)

Section Passes.

Context {env : Type}.
Variable rnd : env -> Z * env.
Implicit Types (s : @state env) (p : @fd_provider env) (l : list (@fd_provider env)).

Lemma set_providers_same s : set_providers (fd_providers s) s = s.
Proof. destruct s; reflexivity. Qed.

(** A node that is not pending is passed over without a draw. *)
Lemma open_node_not_pending (do_rand : bool) (idx : nat) p s :
  pending p = false -> open_node rnd do_rand idx p s = (p, s).
Proof.
  unfold pending, open_node. intros H.
  destruct (enabled p); [|reflexivity].
  destruct (initialized p); [reflexivity | discriminate H].
Qed.

Lemma open_nodes_none_pending (do_rand : bool) :
  forall l (idx : nat) s,
    Forall (fun p => pending p = false) l ->
    open_nodes rnd do_rand idx l s = (l, s).
Proof.
  induction l as [|p l IH]; intros idx s H; cbn [open_nodes]; [reflexivity|].
  inversion H as [|? ? Hp Hl]; subst.
  rewrite open_node_not_pending by exact Hp. rewrite IH by exact Hl.
  reflexivity.
Qed.

(** X7: with no provider pending and fewer providers initialized than
    half of the requested count, [open_fds] never returns: every random
    pass leaves the state as it is, whatever the number of passes. *)
Theorem open_fds_spins (fuel : nat) s :
  Forall (fun p => pending p = false) (fd_providers s) ->
  num_fd_providers_initialized s < num_fd_providers_to_enable s / 2 ->
  __open_fds rnd true s = s
  /\ open_fds rnd fuel s = OutOfFuel.
Proof.
  intros Hp Hlt.
  assert (Hid : __open_fds rnd true s = s).
  { unfold __open_fds. rewrite open_nodes_none_pending by exact Hp.
    apply set_providers_same. }
  split; [exact Hid|].
  unfold open_fds.
  assert (R : open_fds_random rnd fuel s = OutOfFuel).
  { apply Z.ltb_lt in Hlt.
    induction fuel as [|fuel IH]; cbn [open_fds_random]; rewrite Hlt;
      [reflexivity|]. rewrite Hid. exact IH. }
  rewrite R. reflexivity.
Qed.

(** The last pass leaves no node pending. *)
Lemma open_node_exhaustive (idx : nat) p s :
  pending (fst (open_node rnd false idx p s)) = false.
Proof.
  unfold open_node, pending.
  destruct (enabled p) eqn:En; cbn [negb fst]; [|rewrite En; reflexivity].
  destruct (initialized p) eqn:Ini; cbn [fst]; [rewrite En, Ini; reflexivity|].
  destruct (open p (ext s)) as [[|] e]; reflexivity.
Qed.

Lemma open_nodes_exhaustive :
  forall l (idx : nat) s,
    Forall (fun p => pending p = false)
           (fst (open_nodes rnd false idx l s)).
Proof.
  induction l as [|p l IH]; intros idx s; cbn [open_nodes]; [constructor|].
  pose proof (open_node_exhaustive idx p s) as Hp.
  destruct (open_node rnd false idx p s) as [p' s1]. cbn [fst] in Hp.
  specialize (IH (S idx) s1).
  destruct (open_nodes rnd false (S idx) l s1) as [l' s2]. cbn [fst] in *.
  constructor; assumption.
Qed.

(** What [open_fds] is made of. *)
Lemma open_fds_parts (fuel : nat) s (r : bool) s' :
  open_fds rnd fuel s = Done r s' ->
  exists s1,
    open_fds_random rnd fuel s = Done tt s1
    /\ r = true
    /\ s' = output (MsgSummary
                      (num_fd_providers_enabled (__open_fds rnd false s1))
                      (num_fd_providers_initialized (__open_fds rnd false s1)))
              (__open_fds rnd false s1).
Proof.
  unfold open_fds. intros H.
  destruct (open_fds_random rnd fuel s) as [[] s1| | |];
    cbn [bind] in H; try discriminate.
  inversion H; subst. exists s1. repeat split.
Qed.

(** X8: when [open_fds] returns no provider is left enabled without being
    initialized, and [open()] has been called exactly once on every
    provider that was enabled and not initialized at the start and not at
    all on the others, which are left as they were. *)
Theorem open_fds_opens_the_pending (fuel : nat) s (r : bool) s' :
  open_fds rnd fuel s = Done r s' ->
  Forall (fun p => enabled p = true -> initialized p = true) (fd_providers s')
  /\ exists d : list event,
       trace s' = d ++ trace s
       /\ forall (idx : nat) p,
            nth_error (fd_providers s) idx = Some p ->
            opens idx d = (if pending p then 1 else 0)%nat
            /\ (pending p = false -> nth_error (fd_providers s') idx = Some p).
Proof.
  intros H.
  assert (Hclosed : Forall (fun p => pending p = false) (fd_providers s')).
  { destruct (open_fds_parts _ _ _ _ H) as [s1 [_ [_ E]]]. subst s'.
    unfold output, __open_fds.
    pose proof (open_nodes_exhaustive (fd_providers s1) 0 s1) as Hx.
    destruct (open_nodes rnd false 0 (fd_providers s1) s1) as [l' s2].
    exact Hx. }
  split.
  - eapply Forall_impl; [|exact Hclosed].
    intros p Hp En. unfold pending in Hp. rewrite En in Hp.
    destruct (initialized p); [reflexivity | discriminate Hp].
  - destruct (scheduled_open_fds rnd _ _ _ _ H)
      as [d [T [_ [_ [_ [_ [_ [_ [_ A]]]]]]]]].
    exists d. split; [exact T|]. intros idx p E.
    destruct (A idx p E) as [p' [E' O]].
    assert (Hp' : pending p' = false).
    { rewrite Forall_forall in Hclosed. apply Hclosed.
      exact (nth_error_In _ _ E'). }
    destruct O as [[O Eq]|[O [En [Ini _]]]].
    + subst p'. rewrite Hp'. split; [exact O | intros _; exact E'].
    + unfold pending. rewrite En, Ini. cbn [andb negb].
      split; [exact O | discriminate].
Qed.

Lemma open_fds_random_exit :
  forall (fuel : nat) s s1,
    open_fds_random rnd fuel s = Done tt s1 ->
    num_fd_providers_to_enable s1 / 2 <= num_fd_providers_initialized s1.
Proof.
  induction fuel as [|fuel IH]; intros s s1 H; cbn [open_fds_random] in H;
    destruct (num_fd_providers_initialized s <? num_fd_providers_to_enable s / 2)
      eqn:C; try discriminate.
  - inversion H; subst. apply Z.ltb_ge in C. exact C.
  - exact (IH _ _ H).
  - inversion H; subst. apply Z.ltb_ge in C. exact C.
Qed.

(** X9: in a process that has registered its providers and processed its
    options, [open_fds] returns only with at least half of the requested
    count (rounded down) initialized. *)
Theorem open_fds_reaches_half (fuel : nat) s (r : bool) s' :
  configured s ->
  open_fds rnd fuel s = Done r s' ->
  num_fd_providers_to_enable s / 2 <= num_fd_providers_initialized s'
  /\ num_fd_providers_to_enable s' = num_fd_providers_to_enable s.
Proof.
  intros Hc H.
  destruct (configured_shape s Hc) as [n [Sh Hn]].
  unfold registry_shape in Sh. injection Sh as E0 I0 P0 M0.
  destruct (none_initialized n _ M0) as [C0 [L0 _]].
  destruct (open_fds_parts _ _ _ _ H) as [s1 [R [_ E]]].
  pose proof (open_fds_random_exit _ _ _ R) as Hx.
  destruct (scheduled_random rnd _ _ _ R)
    as [d1 [_ [C1 [_ [I1 [_ [Q1 [L1 _]]]]]]]].
  destruct (scheduled_open_fds rnd _ _ _ _ H)
    as [d [_ [C2 [_ [I2 [_ [Q2 [L2 _]]]]]]]].
  pose proof (count_initialized_le (fd_providers s1)) as Hle1.
  pose proof (count_initialized_le (fd_providers s')) as Hle2.
  assert (Hd : (successful_opens d1 <= successful_opens d)%nat).
  { subst s'. unfold output in C2.
    cbn [log fd_providers] in C2.
    destruct (scheduled_pass rnd false s1) as [d2 [_ [C3 _]]]. lia. }
  split; [|exact Q2].
  rewrite I2, I0. rewrite I1, I0, Q1 in Hx.
  change 0 with (wrap32 0) in Hx |- *.
  rewrite iter_incr_wrap, wrap32_small in Hx by lia.
  rewrite iter_incr_wrap, wrap32_small by lia. lia.
Qed.

(** One node, then the walk: the lease, the number of children and what
    identifies the providers are not the scheduler's to change. *)
Lemma open_nodes_keep (do_rand : bool) :
  forall l (idx : nat) s l' s',
    open_nodes rnd do_rand idx l s = (l', s') ->
    lease_view s' = lease_view s
    /\ map capability l' = map capability l.
Proof.
  induction l as [|p l IH]; intros idx s l' s' H; cbn [open_nodes] in H.
  - inversion H; subst. split; reflexivity.
  - destruct (open_node rnd do_rand idx p s) as [p' s1] eqn:N.
    destruct (open_nodes rnd do_rand (S idx) l s1) as [l1 s2] eqn:R.
    inversion H; subst l' s'. clear H.
    destruct (IH _ _ _ _ R) as [A B].
    assert (K : lease_view s1 = lease_view s /\ capability p' = capability p).
    { clear - N. unfold open_node in N.
      destruct (negb (enabled p)); [inversion N; split; reflexivity|].
      destruct (initialized p); [inversion N; split; reflexivity|].
      assert (K1 : forall s0, lease_view s0 = lease_view s ->
                 (let '(ok, e) := open p (ext s0) in
                  let s2 := log (EvOpen idx ok) (set_ext e s0) in
                  if ok then
                    (set_initialized true (set_enabled true p),
                     set_counts (incr (num_fd_providers_enabled s2))
                       (incr (num_fd_providers_initialized s2)) s2)
                  else (set_enabled false p, s2)) = (p', s1) ->
                 lease_view s1 = lease_view s /\ capability p' = capability p).
      { intros s0 E0 H0. destruct (open p (ext s0)) as [[|] e];
          inversion H0; subst; split; try reflexivity; exact E0. }
      destruct do_rand.
      - unfold RAND_BOOL, rnd32 in N. destruct (rnd (ext s)) as [r e].
        destruct (Z.odd (wrap32 r)).
        + inversion N; split; reflexivity.
        + apply (K1 (log (EvRnd (wrap32 r)) (set_ext e s)) eq_refl N).
      - apply (K1 s eq_refl N). }
    destruct K as [K1 K2]. split; [congruence|].
    cbn [map]. rewrite K2, B. reflexivity.
Qed.

Lemma pass_keep (do_rand : bool) s :
  lease_view (__open_fds rnd do_rand s) = lease_view s
  /\ map capability (fd_providers (__open_fds rnd do_rand s))
     = map capability (fd_providers s).
Proof.
  unfold __open_fds.
  destruct (open_nodes rnd do_rand 0 (fd_providers s) s) as [l' s2] eqn:W.
  exact (open_nodes_keep _ _ _ _ _ _ W).
Qed.

Lemma open_fds_random_keep :
  forall (fuel : nat) s s1,
    open_fds_random rnd fuel s = Done tt s1 ->
    lease_view s1 = lease_view s
    /\ map capability (fd_providers s1) = map capability (fd_providers s).
Proof.
  induction fuel as [|fuel IH]; intros s s1 H; cbn [open_fds_random] in H;
    destruct (num_fd_providers_initialized s <? num_fd_providers_to_enable s / 2);
    try discriminate; try (inversion H; subst; split; reflexivity).
  destruct (IH _ _ H) as [A B]. destruct (pass_keep true s) as [A' B'].
  split; congruence.
Qed.

Lemma open_fds_keep (fuel : nat) s (r : bool) s' :
  open_fds rnd fuel s = Done r s' ->
  lease_view s' = lease_view s
  /\ map capability (fd_providers s') = map capability (fd_providers s).
Proof.
  intros H. destruct (open_fds_parts _ _ _ _ H) as [s1 [R [_ E]]]. subst s'.
  destruct (open_fds_random_keep _ _ _ R) as [A B].
  destruct (pass_keep false s1) as [A' B'].
  unfold output. split.
  - transitivity (lease_view (__open_fds rnd false s1)); [reflexivity|].
    congruence.
  - cbn [log fd_providers]. congruence.
Qed.

(** X10: [open_fds] returns TRUE, and changes neither the lease, nor the
    number of children, nor the count of the list, nor the requested
    count, nor the names and functions of the providers or their order. *)
Theorem open_fds_keeps (fuel : nat) s (r : bool) s' :
  open_fds rnd fuel s = Done r s' ->
  r = true
  /\ lease_view s' = lease_view s
  /\ num_fd_providers s' = num_fd_providers s
  /\ num_fd_providers_to_enable s' = num_fd_providers_to_enable s
  /\ map capability (fd_providers s') = map capability (fd_providers s).
Proof.
  intros H.
  destruct (scheduled_open_fds rnd _ _ _ _ H)
    as [d [_ [_ [_ [_ [P [Q _]]]]]]].
  destruct (open_fds_parts _ _ _ _ H) as [s1 [_ [Hr _]]].
  destruct (open_fds_keep _ _ _ _ H) as [A B].
  repeat split; assumption.
Qed.

Lemma open_calls_app (a b : list event) :
  open_calls (a ++ b) = open_calls a ++ open_calls b.
Proof.
  induction a as [|ev a IH]; [reflexivity|].
  destruct ev; cbn [app open_calls]; rewrite IH; reflexivity.
Qed.

Lemma open_nodes_in_order :
  forall l (idx : nat) s,
    exists d : list event,
      trace (snd (open_nodes rnd false idx l s)) = d ++ trace s
      /\ map fst (rev (open_calls d)) = pending_from idx l
      /\ Forall (fun ev => exists (i : nat) (ok : bool), ev = EvOpen i ok) d.
Proof.
  induction l as [|p l IH]; intros idx s; cbn [open_nodes pending_from].
  - exists []. repeat split. constructor.
  - assert (N : exists d1 : list event,
               trace (snd (open_node rnd false idx p s)) = d1 ++ trace s
               /\ map fst (rev (open_calls d1))
                  = (if pending p then [idx] else [])
               /\ Forall (fun ev => exists (i : nat) (ok : bool),
                                      ev = EvOpen i ok) d1).
    { unfold open_node, pending.
      destruct (enabled p); cbn [negb andb];
        [|exists []; repeat split; constructor].
      destruct (initialized p); cbn [negb];
        [exists []; repeat split; constructor|].
      destruct (open p (ext s)) as [[|] e];
        (eexists [EvOpen idx _]; repeat split;
         constructor; [eexists; eexists; reflexivity | constructor]). }
    destruct N as [d1 [T1 [O1 F1]]].
    destruct (open_node rnd false idx p s) as [p' s1]. cbn [snd] in T1.
    destruct (IH (S idx) s1) as [d2 [T2 [O2 F2]]].
    destruct (open_nodes rnd false (S idx) l s1) as [l' s2]. cbn [snd] in *.
    exists (d2 ++ d1). split; [rewrite T2, T1, app_assoc; reflexivity|].
    split.
    + rewrite open_calls_app, rev_app_distr, map_app, O1, O2.
      destruct (pending p); reflexivity.
    + apply Forall_app. split; assumption.
Qed.

(** X17: the last pass of the scheduler makes no draw and calls [open()]
    on the pending providers in registration order, each once. *)
Theorem exhaustive_pass_in_order s :
  exists d : list event,
    trace (__open_fds rnd false s) = d ++ trace s
    /\ map fst (rev (open_calls d)) = pending_from 0 (fd_providers s)
    /\ Forall (fun ev => exists (i : nat) (ok : bool), ev = EvOpen i ok) d.
Proof.
  destruct (open_nodes_in_order (fd_providers s) 0 s) as [d [T [O F]]].
  exists d. unfold __open_fds.
  destruct (open_nodes rnd false 0 (fd_providers s) s) as [l' s2].
  cbn [snd] in T. repeat split; assumption.
Qed.

End Passes.

(** ** More of the selectors *)

Section Sampling.

Context {env : Type}.
Variable rnd : env -> Z * env.
Implicit Types (s : @state env) (p : @fd_provider env) (l : list (@fd_provider env)).

(** X11: before [open_fds] has run the fresh selector answers -1, with
    any fuel and without a draw: in a process that has only registered
    its providers and processed its options nothing is counted as
    initialized. *)
Theorem get_new_random_fd_before_open (fuel : nat) s :
  configured s ->
  get_new_random_fd rnd fuel s = Done (-1) s.
Proof.
  intros Hc. destruct (configured_shape s Hc) as [n [Sh _]].
  unfold registry_shape in Sh. injection Sh as E0 _ _ _.
  unfold get_new_random_fd. rewrite E0. reflexivity.
Qed.

Lemma sample_fd_spins :
  forall (fuel : nat) s,
    Forall (fun p => usable p = false) (fd_providers s) ->
    num_fd_providers s <> 0 ->
    sample_fd rnd fuel s = OutOfFuel.
Proof.
  induction fuel as [|fuel IH]; intros s Hu Hn; cbn [sample_fd];
    [reflexivity|].
  unfold rnd32. destruct (rnd (ext s)) as [r e].
  cbn [num_fd_providers fd_providers log set_ext].
  apply Z.eqb_neq in Hn. rewrite Hn. apply Z.eqb_neq in Hn.
  destruct (find_node _ 0 0 (fd_providers s)) as [[idx p]|] eqn:F;
    [|apply IH; assumption].
  destruct (find_node_nth _ _ _ _ _ _ F) as [m [_ E]].
  apply nth_error_In in E. rewrite Forall_forall in Hu.
  pose proof (Hu p E) as Hp. unfold usable in Hp.
  destruct (enabled p); cbn [negb]; [|apply IH; [apply Forall_forall|]; assumption].
  cbn [andb] in Hp. rewrite Hp. cbn [negb].
  apply IH; [apply Forall_forall|]; assumption.
Qed.

(** X12: the fresh selector does not return when the counters are not 0
    and no provider is both enabled and initialized (the counters are not
    taken back when a provider is disabled after [open_fds]): every draw
    is discarded, whatever the number of draws. *)
Theorem get_new_random_fd_spins (fuel : nat) s :
  Forall (fun p => usable p = false) (fd_providers s) ->
  num_fd_providers s <> 0 ->
  num_fd_providers_enabled s <> 0 ->
  num_fd_providers_initialized s <> 0 ->
  get_new_random_fd rnd fuel s = OutOfFuel.
Proof.
  intros Hu Hn He Hi. unfold get_new_random_fd.
  apply Z.eqb_neq in He, Hi. rewrite He, Hi.
  apply sample_fd_spins; assumption.
Qed.

(** The counted walk reaches the node at the ordinal, in a list of at
    most 2^32 nodes. *)
Lemma find_node_at :
  forall l (j : Z) (idx m : nat) p,
    nth_error l m = Some p ->
    0 <= j ->
    j + Z.of_nat (List.length l) <= 2 ^ 32 ->
    find_node (j + Z.of_nat m) j idx l = Some ((idx + m)%nat, p).
Proof.
  induction l as [|q l IH]; intros j idx m p E Hj Hl;
    [destruct m; discriminate E|].
  cbn [find_node List.length] in *. destruct m as [|m]; cbn [nth_error] in E.
  - inversion E; subst. rewrite Z.add_0_r, Z.eqb_refl, Nat.add_0_r.
    reflexivity.
  - assert (Hm : (m < List.length l)%nat)
      by (apply nth_error_Some; congruence).
    replace (j + Z.of_nat (S m) =? j) with false
      by (symmetry; apply Z.eqb_neq; lia).
    unfold incr. rewrite wrap32_small by lia.
    replace (j + Z.of_nat (S m)) with (j + 1 + Z.of_nat m) by lia.
    rewrite (IH (j + 1) (S idx) m p E) by lia.
    f_equal. f_equal. lia.
Qed.

(** X13: one draw is enough when it falls on a usable provider whose
    [get()] answers a descriptor that is not negative: the ordinal drawn,
    [rnd() % num_fd_providers], is the position in registration order,
    and the call returns that descriptor after exactly one draw and one
    [get()]. *)
Theorem get_new_random_fd_hit (fuel : nat) s (r : Z) (e e' : env) p (fd : Z) :
  num_fd_providers_enabled s <> 0 ->
  num_fd_providers_initialized s <> 0 ->
  0 < num_fd_providers s ->
  Z.of_nat (List.length (fd_providers s)) <= 2 ^ 32 ->
  rnd (ext s) = (r, e) ->
  nth_error (fd_providers s) (Z.to_nat (wrap32 r mod num_fd_providers s))
  = Some p ->
  usable p = true ->
  get p e = (fd, e') ->
  0 <= fd ->
  get_new_random_fd rnd (S fuel) s
  = Done fd
      (log (EvGet (Z.to_nat (wrap32 r mod num_fd_providers s)) fd)
         (set_ext e' (log (EvRnd (wrap32 r)) (set_ext e s)))).
Proof.
  intros He Hi Hn Hl Hr Hp Hu Hg Hfd. unfold get_new_random_fd.
  apply Z.eqb_neq in He, Hi. rewrite He, Hi.
  cbn [sample_fd]. unfold rnd32. rewrite Hr.
  cbn [num_fd_providers fd_providers log set_ext ext].
  replace (num_fd_providers s =? 0) with false
    by (symmetry; apply Z.eqb_neq; lia).
  pose proof (Z.mod_pos_bound (wrap32 r) (num_fd_providers s) Hn) as Hb.
  pose proof (find_node_at (fd_providers s) 0 0
                (Z.to_nat (wrap32 r mod num_fd_providers s)) p Hp) as F.
  rewrite Z2Nat.id in F by lia. cbn [Z.add Nat.add] in F.
  rewrite F by lia.
  unfold usable in Hu. apply andb_prop in Hu. destruct Hu as [En Ini].
  rewrite En, Ini. cbn [negb]. rewrite Hg.
  replace (fd <? 0) with false by (symmetry; apply Z.ltb_ge; exact Hfd).
  reflexivity.
Qed.

(** *** What the selectors leave alone *)

Lemma sample_fd_quiet :
  forall (fuel : nat) s (fd : Z) s',
    sample_fd rnd fuel s = Done fd s' ->
    (registry_view s', open_calls (trace s'))
    = (registry_view s, open_calls (trace s)).
Proof.
  induction fuel as [|fuel IH]; intros s fd s' H; cbn [sample_fd] in H;
    [discriminate|].
  unfold rnd32 in H. destruct (rnd (ext s)) as [r e].
  cbn [num_fd_providers fd_providers log set_ext ext] in H.
  destruct (num_fd_providers s =? 0); [discriminate|].
  destruct (find_node _ 0 0 (fd_providers s)) as [[idx p]|];
    [|exact (IH _ _ _ H)].
  destruct (negb (enabled p)); [exact (IH _ _ _ H)|].
  destruct (negb (initialized p)); [exact (IH _ _ _ H)|].
  destruct (get p e) as [v e'].
  destruct (v <? 0); [exact (IH _ _ _ H)|].
  inversion H; subst. reflexivity.
Qed.

Lemma get_new_random_fd_quiet (fuel : nat) s (fd : Z) s' :
  get_new_random_fd rnd fuel s = Done fd s' ->
  (registry_view s', open_calls (trace s'))
  = (registry_view s, open_calls (trace s)).
Proof.
  unfold get_new_random_fd. intros H.
  destruct (num_fd_providers_enabled s =? 0); [inversion H; reflexivity|].
  destruct (num_fd_providers_initialized s =? 0); [inversion H; reflexivity|].
  exact (sample_fd_quiet _ _ _ _ H).
Qed.

(** What a resampling is made of. *)
Lemma resample_parts (fuel : nat) s sR :
  resample rnd fuel s = Done tt sR ->
  exists (v : Z) s1 (r : Z),
    get_new_random_fd rnd fuel s = Done v s1
    /\ shm_current_fd sR = v
    /\ fd_providers sR = fd_providers s1
    /\ trace sR = EvRnd r :: trace s1
    /\ (registry_view sR, open_calls (trace sR))
       = (registry_view s, open_calls (trace s)).
Proof.
  unfold resample. intros H.
  destruct (get_new_random_fd rnd fuel s) as [v s1| | |] eqn:G;
    cbn [bind] in H; try discriminate.
  pose proof (get_new_random_fd_quiet _ _ _ _ G) as Q.
  unfold RAND_RANGE, rnd32 in H.
  cbn [ext set_current_fd max_children] in H.
  exists v, s1.
  destruct (max_children s1 >? 5); destruct (rnd (ext s1)) as [r e];
    inversion H; subst sR; exists (wrap32 r);
    (split; [reflexivity|]); (split; [reflexivity|]);
    (split; [reflexivity|]); (split; [reflexivity|]);
    rewrite <- Q; reflexivity.
Qed.

Lemma lease_step_quiet (fuel : nat) s s' :
  lease_step rnd fuel s = Done tt s' ->
  (registry_view s', open_calls (trace s'))
  = (registry_view s, open_calls (trace s)).
Proof.
  unfold lease_step. intros H.
  destruct (shm_fd_lifetime s =? 0).
  - destruct (resample_parts _ _ _ H) as [v [s1 [r [_ [_ [_ [_ Q]]]]]]].
    exact Q.
  - inversion H; reflexivity.
Qed.

Lemma regen_quiet :
  forall (fuel inner : nat) s (fd : Z) s',
    regen rnd fuel inner s = Done fd s' ->
    (registry_view s', open_calls (trace s'))
    = (registry_view s, open_calls (trace s)).
Proof.
  induction fuel as [|fuel IH]; intros inner s fd s' H; cbn [regen] in H;
    destruct (lease_step rnd inner s) as [[] s1| | |] eqn:L; try discriminate;
    apply lease_step_quiet in L;
    destruct (shm_current_fd s1 =? 0); try discriminate.
  - inversion H; subst. exact L.
  - rewrite (IH _ _ _ _ H). exact L.
  - inversion H; subst. exact L.
Qed.

(** X14: the selectors read the registry and never write it: a call of
    [get_random_fd] that returns leaves the list with every flag, the
    four counters and the number of children as they were, and calls no
    [open()]. *)
Theorem get_random_fd_keeps_registry (fuel : nat) s (fd : Z) s' :
  get_random_fd rnd fuel s = Done fd s' ->
  registry_view s' = registry_view s
  /\ open_calls (trace s') = open_calls (trace s).
Proof.
  intros H. pose proof (regen_quiet _ _ _ _ _ H) as Q.
  split; [exact (f_equal fst Q) | exact (f_equal snd Q)].
Qed.

(** The descriptor that a resampling stores, when it is not 0. *)
Lemma resample_value (fuel : nat) s sR :
  resample rnd fuel s = Done tt sR ->
  shm_current_fd sR <> 0 ->
  (shm_current_fd sR = -1
   /\ (num_fd_providers_enabled s = 0 \/ num_fd_providers_initialized s = 0))
  \/ (1 <= shm_current_fd sR
      /\ exists (idx : nat) p,
           nth_error (fd_providers s) idx = Some p
           /\ usable p = true
           /\ In (EvGet idx (shm_current_fd sR)) (trace sR)).
Proof.
  intros R Hnz.
  destruct (resample_parts _ _ _ R) as [v [s1 [r [G [Ev [_ [Et _]]]]]]].
  rewrite Ev in *. unfold get_new_random_fd in G.
  destruct (num_fd_providers_enabled s =? 0) eqn:C1.
  { inversion G; subst. left. split; [reflexivity|].
    left. apply Z.eqb_eq. exact C1. }
  destruct (num_fd_providers_initialized s =? 0) eqn:C2.
  { inversion G; subst. left. split; [reflexivity|].
    right. apply Z.eqb_eq. exact C2. }
  destruct (sample_fd_result rnd _ _ _ _ G)
    as [Hpos [[idx [p [e [tr [N [En [Ini [_ T]]]]]]]] _]].
  right. split; [lia|]. exists idx, p. split; [exact N|]. split.
  - unfold usable. rewrite En, Ini. reflexivity.
  - rewrite Et, T. right. left. reflexivity.
Qed.

(** A call that starts with the lifetime at 0. *)
Lemma regen_fresh :
  forall (fuel inner : nat) s (fd : Z) s',
    shm_fd_lifetime s = 0 ->
    regen rnd fuel inner s = Done fd s' ->
    (fd = -1 /\ (num_fd_providers_enabled s = 0
                 \/ num_fd_providers_initialized s = 0))
    \/ (1 <= fd
        /\ exists (idx : nat) p,
             nth_error (fd_providers s) idx = Some p
             /\ usable p = true
             /\ In (EvGet idx fd) (trace s')).
Proof.
  induction fuel as [|fuel IH]; intros inner s fd s' Hl H; cbn [regen] in H;
    unfold lease_step in H; rewrite Hl in H; cbn [Z.eqb] in H;
    destruct (resample rnd inner s) as [[] sR| | |] eqn:R; try discriminate;
    destruct (shm_current_fd sR =? 0) eqn:Z0; try discriminate.
  - apply Z.eqb_neq in Z0. inversion H; subst fd s'.
    exact (resample_value _ _ _ R Z0).
  - destruct (resample_parts _ _ _ R) as [v [s1 [r [_ [_ [_ [_ Q]]]]]]].
    apply (f_equal fst) in Q. cbn [fst] in Q. unfold registry_view in Q.
    injection Q as Q1 _ _ Q4 Q5 _.
    destruct (IH inner (set_fd_lifetime 0 sR) fd s' eq_refl H)
      as [[A B]|[A [idx [p [N [U I]]]]]].
    + left. split; [exact A|].
      cbn [num_fd_providers_enabled num_fd_providers_initialized
           set_fd_lifetime] in B. rewrite Q4, Q5 in B. exact B.
    + right. split; [exact A|]. exists idx, p.
      cbn [fd_providers set_fd_lifetime] in N. rewrite Q1 in N.
      repeat split; assumption.
  - apply Z.eqb_neq in Z0. inversion H; subst fd s'.
    exact (resample_value _ _ _ R Z0).
Qed.

(** X15: a call of [get_random_fd] that starts with the lifetime at 0 and
    returns, returns -1 or a descriptor that is at least 1: -1 only when
    the counter of enabled or of initialized providers is 0, and a
    descriptor only as the result of [get()] of a provider that is
    enabled and initialized, the call being in the trace. *)
Theorem get_random_fd_fresh_value (fuel : nat) s (fd : Z) s' :
  shm_fd_lifetime s = 0 ->
  get_random_fd rnd fuel s = Done fd s' ->
  (fd = -1 /\ (num_fd_providers_enabled s = 0
               \/ num_fd_providers_initialized s = 0))
  \/ (1 <= fd
      /\ exists (idx : nat) p,
           nth_error (fd_providers s) idx = Some p
           /\ usable p = true
           /\ In (EvGet idx fd) (trace s')).
Proof. intros Hl H. exact (regen_fresh _ _ _ _ _ Hl H). Qed.

End Sampling.

(** ** The lease and the scheduler *)

Section StaleLease.

Context {env : Type}.
Variable rnd : env -> Z * env.
Implicit Types (s : @state env).

(** X16: a call of [get_random_fd] made while a counter is still 0 (the
    lifetime being 0, the number of children an [unsigned int]) returns
    -1 with any fuel and stores -1 as the leased descriptor, with a
    lifetime of the usual range; [open_fds] does not touch the lease, so
    after it has run the calls go on returning -1 until that lifetime is
    used up, whatever the providers now offer. *)
Theorem get_random_fd_leases_the_sentinel (fuel : nat) s :
  num_fd_providers_enabled s = 0 \/ num_fd_providers_initialized s = 0 ->
  shm_fd_lifetime s = 0 ->
  0 <= max_children s < 2 ^ 32 ->
  exists s1,
    get_random_fd rnd fuel s = Done (-1) s1
    /\ shm_current_fd s1 = -1
    /\ lifetime_in_range (max_children s) (shm_fd_lifetime s1)
    /\ forall (fuel1 fuel2 : nat) (r : bool) s2 (j : nat),
         open_fds rnd fuel1 s1 = Done r s2 ->
         Z.of_nat j <= shm_fd_lifetime s1 ->
         get_random_fd_calls rnd fuel2 j s2
         = Done (repeat (-1) j)
             (set_fd_lifetime (shm_fd_lifetime s1 - Z.of_nat j) s2).
Proof.
  intros Hz Hl Hmc.
  assert (G : get_new_random_fd rnd fuel s = Done (-1) s).
  { unfold get_new_random_fd. destruct Hz as [H|H]; rewrite H; cbn [Z.eqb];
      [reflexivity|].
    destruct (num_fd_providers_enabled s =? 0); reflexivity. }
  assert (R : exists sR, resample rnd fuel s = Done tt sR
                         /\ shm_current_fd sR = -1).
  { unfold resample. rewrite G. cbn [bind]. unfold RAND_RANGE, rnd32.
    cbn [ext set_current_fd max_children].
    destruct (max_children s >? 5); destruct (rnd (ext s)) as [r e];
      eexists; split; reflexivity. }
  destruct R as [sR [R Hc]]. exists sR.
  destruct (resample_range rnd _ _ _ Hmc R) as [Hr Hm].
  split.
  { unfold get_random_fd.
    destruct fuel; cbn [regen]; unfold lease_step; rewrite Hl;
      cbn [Z.eqb]; rewrite R, Hc; reflexivity. }
  split; [exact Hc|]. split; [exact Hr|].
  intros fuel1 fuel2 r s2 j Ho Hj.
  destruct (open_fds_keep rnd _ _ _ _ Ho) as [K _].
  unfold lease_view in K. injection K as K1 K2 _.
  assert (Hb : 0 <= shm_fd_lifetime sR < 2 ^ 32).
  { destruct Hr as [Hr1 Hr2]. change (2 ^ 32) with 4294967296 in *.
    destruct (Z_gt_le_dec (max_children s) 5) as [Hgt|Hle];
      [specialize (Hr1 Hgt) | specialize (Hr2 Hle)]; lia. }
  rewrite (get_random_fd_calls_sticky rnd fuel2 j
             (Z.to_nat (shm_fd_lifetime sR)) s2).
  - rewrite K1, Hc. f_equal. f_equal. lia.
  - rewrite K2. symmetry. apply Z2Nat.id. lia.
  - rewrite Z2Nat.id by lia. lia.
  - rewrite K1, Hc. discriminate.
  - lia.
Qed.

End StaleLease.

(** ** Concrete runs of the further properties *)

(** X1 at the table {A, B, C}. *)
Lemma setup_fd_providers_registers_witness :
  map (fun p => (name p, enabled p, initialized p)) (fd_providers abc_state)
  = [("A"%string, true, false); ("B"%string, true, false);
     ("C"%string, true, false)]
  /\ num_fd_providers abc_state
     = Z.of_nat (List.length (fd_providers abc_state)).
Proof.
  destruct (setup_fd_providers_registers abc_table (boot 0%nat 8 0 0))
    as [A [_ [C _]]].
  split.
  - change abc_state with (setup_fd_providers abc_table (boot 0%nat 8 0 0)).
    rewrite A. reflexivity.
  - exact (C eq_refl eq_refl).
Defined.

(** X2 at two providers of the name "B": the first is enabled, the second
    is not. *)
Lemma fds_param_first_match_witness :
  exists s' : @state nat,
    fds_param true "B" twins_state = Done tt s'
    /\ map (fun p => (name p, enabled p, fst (get p 0%nat))) (fd_providers s')
       = [("A"%string, false, 3); ("B"%string, true, 4);
          ("B"%string, false, 5)].
Proof.
  destruct (fds_param_first_match true "B" twins_state
              [provider_decl "A" false open_ok 3]
              (provider_decl "B" false open_ok 4)
              [provider_decl "B" false open_fails 5])
    as [s' [E [F _]]].
  - reflexivity.
  - reflexivity.
  - not_a_member.
  - exists s'. split; [exact E|]. rewrite F. reflexivity.
Defined.

Lemma is_c_string_B : is_c_string "B".
Proof. unfold is_c_string. not_a_member. Defined.

Lemma abc_names_nodup : NoDup (map name (fd_providers abc_state)).
Proof. cbn. repeat constructor; cbn; intuition discriminate. Defined.

Lemma B_no_comma : ~ In COMMA (list_ascii_of_string "B").
Proof. not_a_member. Defined.

Lemma B_registered : registered abc_state "B".
Proof. unfold registered. cbn. auto. Defined.

(** X3 at {A, B, C} and "B": B is disabled, A and C stay enabled. *)
Lemma process_fds_param_disable_one_name_witness :
  exists s' : @state nat,
    process_fds_param "B" false abc_state = Done tt s'
    /\ map (fun p => (name p, enabled p)) (fd_providers s')
       = [("A"%string, true); ("B"%string, false); ("C"%string, true)]
    /\ num_fd_providers_to_enable s' = 0.
Proof.
  eexists. split.
  - apply (process_fds_param_disable_one_name "B" abc_state).
    + exact is_c_string_B.
    + exact B_no_comma.
    + discriminate.
    + exact abc_names_nodup.
    + exact B_registered.
  - split; reflexivity.
Defined.

(** X4 at {A, B, C} and "B". *)
Lemma process_fds_param_enable_one_name_witness :
  exists s' : @state nat,
    process_fds_param "B" true abc_state = Done tt s'
    /\ map (fun p => (name p, enabled p)) (fd_providers s')
       = [("A"%string, false); ("B"%string, true); ("C"%string, false)]
    /\ num_fd_providers_to_enable s' = 1.
Proof.
  eexists. split.
  - apply (process_fds_param_enable_one_name "B" abc_state).
    + exact is_c_string_B.
    + exact B_no_comma.
    + discriminate.
    + exact abc_names_nodup.
    + exact B_registered.
  - split; reflexivity.
Defined.

(** X5 at "B" and "B,". *)
Lemma process_fds_param_comma_at_end_witness :
  process_fds_param "B," true abc_state = process_fds_param "B" true abc_state.
Proof.
  apply (process_fds_param_comma_at_end "B" true abc_state).
  - exact is_c_string_B.
  - exact B_no_comma.
  - discriminate.
Defined.

(** X6 at "A,B" in the disable mode: A is disabled at the comma, and the
    loop, in its next and last turn, tests the byte at offset 4 of the
    4 bytes of the copy. *)
Lemma process_fds_param_inner_comma_witness :
  process_fds_param "A,B" false abc_state = Fault
  \/ exists s', process_fds_param "A,B" false abc_state = Exit EXIT_FAILURE s'.
Proof.
  apply (process_fds_param_inner_comma "A,B" ["A"%char] "B"%char []).
  - unfold is_c_string. not_a_member.
  - reflexivity.
  - discriminate.
  - not_a_member.
Defined.

(** X18 at {A, B, C}, all enabled, and "B". *)
Lemma process_fds_param_enable_then_disable_witness :
  exists s1 s2 : @state nat,
    process_fds_param "B" true abc_state = Done tt s1
    /\ process_fds_param "B" false s1 = Done tt s2
    /\ map enabled (fd_providers abc_state) = [true; true; true]
    /\ map enabled (fd_providers s2) = [false; false; false].
Proof.
  destruct (process_fds_param_enable_then_disable "B" abc_state)
    as [s1 [s2 [A [B [C _]]]]].
  - exact is_c_string_B.
  - exact B_no_comma.
  - discriminate.
  - exact abc_names_nodup.
  - exact B_registered.
  - exists s1, s2. split; [exact A|]. split; [exact B|].
    split; [reflexivity|]. rewrite C. reflexivity.
Defined.

(** X7 after "A" twice in the enable mode and once in the disable mode. *)
Lemma open_fds_spins_witness :
  __open_fds slow_rnd true abc_requested_twice = abc_requested_twice
  /\ open_fds slow_rnd 1000 abc_requested_twice = OutOfFuel.
Proof.
  apply (open_fds_spins slow_rnd 1000 abc_requested_twice).
  - vm_compute. repeat constructor.
  - reflexivity.
Defined.

(** X8 at the four providers: "sockets" is opened once, without success. *)
Lemma open_fds_opens_the_pending_witness :
  open_fds slow_rnd 8 fds_state = Done true fds_opened
  /\ Forall (fun p => enabled p = true -> initialized p = true)
            (fd_providers fds_opened)
  /\ exists d : list event,
       trace fds_opened = d ++ trace fds_state
       /\ forall (idx : nat) p,
            nth_error (fd_providers fds_state) idx = Some p ->
            opens idx d = (if pending p then 1 else 0)%nat
            /\ (pending p = false ->
                nth_error (fd_providers fds_opened) idx = Some p).
Proof.
  assert (H : open_fds slow_rnd 8 fds_state = Done true fds_opened)
    by (vm_compute; reflexivity).
  split; [exact H|].
  exact (open_fds_opens_the_pending slow_rnd 8 fds_state true fds_opened H).
Defined.

Lemma fds_epoll_only_configured : configured fds_epoll_only.
Proof.
  apply (configured_param
           (state_of (process_fds_param "files" true fds_state) fds_state)
           fds_epoll_only "epoll" true); [|vm_compute; reflexivity].
  apply (configured_param fds_state _ "files" true);
    [|vm_compute; reflexivity].
  apply configured_setup. reflexivity.
Defined.

(** X9 with two requests counted and "epoll" alone enabled. *)
Lemma open_fds_reaches_half_witness :
  open_fds slow_rnd 8 fds_epoll_only = Done true fds_epoll_opened
  /\ num_fd_providers_to_enable fds_epoll_only / 2
     <= num_fd_providers_initialized fds_epoll_opened
  /\ num_fd_providers_to_enable fds_epoll_opened
     = num_fd_providers_to_enable fds_epoll_only.
Proof.
  assert (H : open_fds slow_rnd 8 fds_epoll_only = Done true fds_epoll_opened)
    by (vm_compute; reflexivity).
  split; [exact H|].
  exact (open_fds_reaches_half slow_rnd 8 fds_epoll_only true
           fds_epoll_opened fds_epoll_only_configured H).
Defined.

(** X10 at the four providers. *)
Lemma open_fds_keeps_witness :
  open_fds slow_rnd 8 fds_state = Done true fds_opened
  /\ true = true
  /\ lease_view fds_opened = lease_view fds_state
  /\ num_fd_providers fds_opened = num_fd_providers fds_state
  /\ num_fd_providers_to_enable fds_opened
     = num_fd_providers_to_enable fds_state
  /\ map capability (fd_providers fds_opened)
     = map capability (fd_providers fds_state).
Proof.
  assert (H : open_fds slow_rnd 8 fds_state = Done true fds_opened)
    by (vm_compute; reflexivity).
  split; [exact H|].
  exact (open_fds_keeps slow_rnd 8 fds_state true fds_opened H).
Defined.

(** X11 after an option and before the scheduler. *)
Lemma get_new_random_fd_before_open_witness :
  get_new_random_fd slow_rnd 8 fds_no_pipes = Done (-1) fds_no_pipes.
Proof.
  exact (get_new_random_fd_before_open slow_rnd 8 fds_no_pipes
           fds_no_pipes_configured).
Defined.

(** X12 after the scheduler and the two options that disable the
    providers it opened. *)
Lemma get_new_random_fd_spins_witness :
  num_fd_providers_enabled fds_all_off = 2
  /\ get_new_random_fd slow_rnd 1000 fds_all_off = OutOfFuel.
Proof.
  split; [reflexivity|].
  apply (get_new_random_fd_spins slow_rnd 1000 fds_all_off).
  - vm_compute. repeat constructor.
  - vm_compute. discriminate.
  - vm_compute. discriminate.
  - vm_compute. discriminate.
Defined.

(** X13 after the scheduler: the draw 0 falls on "files". *)
Lemma get_new_random_fd_hit_witness :
  get_new_random_fd slow_rnd 1 fds_opened = Done 3 fds_sampled.
Proof.
  apply (get_new_random_fd_hit slow_rnd 0 fds_opened 0 1%nat 1%nat
           (mk_provider "files" true true open_ok (get_const 3)) 3).
  - vm_compute. discriminate.
  - vm_compute. discriminate.
  - reflexivity.
  - vm_compute. discriminate.
  - reflexivity.
  - reflexivity.
  - reflexivity.
  - reflexivity.
  - vm_compute. discriminate.
Defined.

(** X14 and X15 at the first call after the scheduler. *)
Lemma get_random_fd_keeps_registry_witness :
  get_random_fd slow_rnd 8 fds_opened = Done 3 fds_resampled
  /\ registry_view fds_resampled = registry_view fds_opened
  /\ open_calls (trace fds_resampled) = open_calls (trace fds_opened).
Proof.
  assert (H : get_random_fd slow_rnd 8 fds_opened = Done 3 fds_resampled)
    by (vm_compute; reflexivity).
  split; [exact H|].
  exact (get_random_fd_keeps_registry slow_rnd 8 fds_opened 3 fds_resampled H).
Defined.

Lemma get_random_fd_fresh_value_witness :
  shm_fd_lifetime fds_opened = 0
  /\ get_random_fd slow_rnd 8 fds_opened = Done 3 fds_resampled
  /\ ((3 = -1 /\ (num_fd_providers_enabled fds_opened = 0
                  \/ num_fd_providers_initialized fds_opened = 0))
      \/ (1 <= 3
          /\ exists (idx : nat) (p : fd_provider),
               nth_error (fd_providers fds_opened) idx = Some p
               /\ usable p = true
               /\ In (EvGet idx 3) (trace fds_resampled))).
Proof.
  assert (H : get_random_fd slow_rnd 8 fds_opened = Done 3 fds_resampled)
    by (vm_compute; reflexivity).
  split; [reflexivity|]. split; [exact H|].
  exact (get_random_fd_fresh_value slow_rnd 8 fds_opened 3 fds_resampled
           eq_refl H).
Defined.

(** X16: a call before the scheduler leases -1 for five calls; the
    scheduler then opens three providers, and the next five calls still
    return -1. *)
Lemma get_random_fd_leases_the_sentinel_witness :
  get_random_fd slow_rnd 8 fds_state = Done (-1) fds_early_call
  /\ open_fds slow_rnd 8 fds_early_call = Done true fds_opened_late
  /\ num_fd_providers_initialized fds_opened_late = 3
  /\ get_random_fd_calls slow_rnd 8 5 fds_opened_late
     = Done (repeat (-1) 5) (set_fd_lifetime 0 fds_opened_late).
Proof.
  assert (H : get_random_fd slow_rnd 8 fds_state = Done (-1) fds_early_call)
    by (vm_compute; reflexivity).
  assert (Ho : open_fds slow_rnd 8 fds_early_call = Done true fds_opened_late)
    by (vm_compute; reflexivity).
  split; [exact H|]. split; [exact Ho|]. split; [reflexivity|].
  destruct (get_random_fd_leases_the_sentinel slow_rnd 8 fds_state)
    as [s1 [A [_ [_ D]]]].
  - left. reflexivity.
  - reflexivity.
  - vm_compute. split; [discriminate | reflexivity].
  - rewrite H in A. injection A as A. subst s1.
    exact (D 8%nat 8%nat true fds_opened_late 5%nat Ho
             ltac:(vm_compute; discriminate)).
Defined.
